(** * etl.py: the song-play ETL job, embedded and verified

    The job (src/etl.py) reads two JSON data sets through Spark, derives five
    tables (songs, artists, users, times, songplays) and writes them as
    parquet.  The embedding follows the script line by line:

    - a [DataFrame] is a list of column names and a list of rows, a row being
      a list of cells ([value]); the DataFrame methods the script calls
      ([select], [distinct], [withColumnRenamed], [filter], [withColumn]) and
      the SQL operators of its two queries (window [ROW_NUMBER], [LEFT JOIN],
      projection with aliases, [WHERE], [SELECT DISTINCT]) are functions on
      that representation;
    - the Spark session is a state ([Session]): the JSON data behind each
      path pattern, the temp views and the parquet locations written; the
      two [process_*] functions are computations in a state-and-exception
      monad, an exception leaving the locations already written in place;
    - what the engine leaves open (the order in which rows reach a window
      sort, the host time zone) is a parameter ([Engine]).

    Python floats ([ts / 1000.0]) are binary64 values computed with the
    Standard Library's [SpecFloat].

    Where Spark rather than the script decides, the model takes this:

    - the JSON reader infers one column per field of the record type, and a
      field that a record lacks is null ([song_frame], [event_frame]);
    - two double cells are equal when they are the same binary64 value, all
      NaNs being one value;
    - a frame is computed when it is built; the script has no write between
      the timestamp UDF and the first write that runs it, so an exception
      of the UDF leaves the state the lazy evaluation leaves;
    - row numbers are not bounded;
    - [main] takes the two bucket names; the settings of dl.cfg (lines
      11-15 and 191-192) are a parameter of [script]: what a lookup
      evaluates to, a value or the exception of the parser. *)

From Stdlib Require Import ZArith String Ascii List Permutation Lia.
From Stdlib Require Import Floats.SpecFloat.
From stdpp Require Import base decidable option list sorting strings gmap.

Open Scope string_scope.
Open Scope Z_scope.

(** ** Exceptions and results *)

Inductive exn : Type :=
  | AnalysisException (what : string)
  | PythonException (what : string).

Inductive result (A : Type) : Type :=
  | Ok (a : A)
  | Raise (e : exn).
Arguments Ok {A} a.
Arguments Raise {A} e.

Definition rbind {A B : Type} (m : result A) (k : A -> result B) : result B :=
  match m with
  | Ok a => k a
  | Raise e => Raise e
  end.

Notation "'do' x <- m ; k" := (rbind m (fun x => k))
  (at level 10, x name, m at level 100, k at level 200).

Fixpoint mapR {A B : Type} (f : A -> result B) (l : list A) : result (list B) :=
  match l with
  | [] => Ok []
  | x :: l' => do y <- f x; do ys <- mapR f l'; Ok (y :: ys)
  end.

(** ** Cells, rows and frames *)

(** A binary64 value ([prec = 53], [emax = 1024]). *)
Definition float64 : Type := spec_float.

Inductive value : Type :=
  | VNull
  | VString (s : string)
  | VInt (n : Z)
  | VLong (n : Z)
  | VDouble (d : float64)
  | VTimestamp (us : Z).

#[global] Instance spec_float_eq_dec : EqDecision spec_float.
Proof. solve_decision. Defined.

#[global] Instance value_eq_dec : EqDecision value.
Proof. solve_decision. Defined.

Definition Row : Type := list value.

Record DataFrame : Type := mkDataFrame {
  columns : list string;
  rows : list Row
}.

Definition ostring (o : option string) : value :=
  match o with Some s => VString s | None => VNull end.
Definition olong (o : option Z) : value :=
  match o with Some n => VLong n | None => VNull end.
Definition odouble (o : option float64) : value :=
  match o with Some d => VDouble d | None => VNull end.

(** Position of the first column called [c]. *)
Fixpoint index_of (c : string) (cols : list string) : option nat :=
  match cols with
  | [] => None
  | c' :: cs => if String.eqb c' c then Some O else S <$> index_of c cs
  end.

Definition cell (i : nat) (r : Row) : value := nth i r VNull.

Definition resolve (df : DataFrame) (c : string) : result nat :=
  match index_of c (columns df) with
  | Some i => Ok i
  | None => Raise (AnalysisException c)
  end.

(** SQL [=]: unknown (so not true) as soon as one side is null. *)
Definition sql_eq (a b : value) : bool :=
  match a, b with
  | VNull, _ | _, VNull => false
  | _, _ => bool_decide (a = b)
  end.

(** ** The DataFrame methods the script calls *)

Definition pick (idxs : list nat) (r : Row) : Row := map (fun i => cell i r) idxs.

(** [df.select(cols)] *)
Definition select (cols : list string) (df : DataFrame) : result DataFrame :=
  do idxs <- mapR (resolve df) cols;
  Ok {| columns := cols; rows := map (pick idxs) (rows df) |}.

(** [df.distinct()] *)
Definition distinct (df : DataFrame) : DataFrame :=
  {| columns := columns df; rows := remove_dups (rows df) |}.

(** [df.withColumnRenamed(existing, new)]: no column of that name, no change. *)
Definition withColumnRenamed (existing new : string) (df : DataFrame) : DataFrame :=
  {| columns := map (fun c => if String.eqb c existing then new else c) (columns df);
     rows := rows df |}.

(** [df.filter("c = lit")] and SQL's [WHERE c = lit], for a literal that is
    not null. *)
Definition where_eq (c : string) (lit : value) (df : DataFrame) : result DataFrame :=
  do i <- resolve df c;
  Ok {| columns := columns df;
        rows := List.filter (fun r => sql_eq (cell i r) lit) (rows df) |}.

(** A column expression: resolved against a frame, then evaluated per row. *)
Definition Column : Type := DataFrame -> result (Row -> result value).

(** [udf(f, T)(c)]: a Python function applied to the cell of column [c]. *)
Definition udf (f : value -> result value) (c : string) : Column :=
  fun df => do i <- resolve df c; Ok (fun r => f (cell i r)).

(** A built-in scalar function applied to column [c]. *)
Definition builtin (f : value -> value) (c : string) : Column :=
  fun df => do i <- resolve df c; Ok (fun r => Ok (f (cell i r))).

(** [df.withColumn(name, e)]: replaces the column called [name], or appends
    one. *)
Definition withColumn (name : string) (e : Column) (df : DataFrame) : result DataFrame :=
  do f <- e df;
  match index_of name (columns df) with
  | Some i =>
      do rs <- mapR (fun r => do v <- f r; Ok (<[i:=v]> r)) (rows df);
      Ok {| columns := columns df; rows := rs |}
  | None =>
      do rs <- mapR (fun r => do v <- f r; Ok (r ++ [v])%list) (rows df);
      Ok {| columns := (columns df ++ [name])%list; rows := rs |}
  end.

(** ** Python floats and [datetime.fromtimestamp] *)

Module Float64.

Definition prec : Z := 53.
Definition emax : Z := 1024.

(** [float(n)] for a Python int: the nearest binary64 value, ties to even. *)
Definition of_Z (n : Z) : float64 := binary_normalize prec emax n 0 false.

Definition div (x y : float64) : float64 := SFdiv prec emax x y.
Definition mul (x y : float64) : float64 := SFmul prec emax x y.

Definition is_finite (x : float64) : bool :=
  match x with
  | S754_zero _ | S754_finite _ _ _ => true
  | _ => false
  end.

(** C's [modf]: the integral part (truncated toward zero) and the
    fractional part, which keeps the sign of the argument.  Both are exact. *)
Definition modf (x : float64) : Z * float64 :=
  match x with
  | S754_finite s m e =>
      if 0 <=? e then (cond_Zopp s (Z.shiftl (Z.pos m) e), S754_zero s)
      else
        let k := - e in
        (cond_Zopp s (Z.shiftr (Z.pos m) k),
         binary_normalize prec emax (cond_Zopp s (Z.pos m mod 2 ^ k)) e s)
  | _ => (0, x)
  end.

(** The integer nearest to a finite [x], a tie going to the even one
    ([_PyTime_RoundHalfEven]). *)
Definition round_half_even (x : float64) : Z :=
  match x with
  | S754_finite s m e =>
      if 0 <=? e then cond_Zopp s (Z.shiftl (Z.pos m) e)
      else
        let k := - e in
        let q := Z.shiftr (Z.pos m) k in
        let r := Z.pos m mod 2 ^ k in
        let half := 2 ^ (k - 1) in
        cond_Zopp s
          (if r <? half then q
           else if half <? r then q + 1
           else if Z.even q then q else q + 1)
  | _ => 0
  end.

End Float64.

(** A naive [datetime]: the wall-clock second, counted from 1970-01-01
    00:00:00 of the same wall clock, and the microsecond. *)
Record datetime : Type := mkDatetime {
  wall : Z;
  microsecond : Z
}.

(** What the execution engine and its host decide: the order in which the
    rows of a window partition reach the sort, and the time zones. *)
Record Engine : Type := mkEngine {
  (** the rows of a partition as the shuffle delivers them *)
  arrange : list Row -> list Row;
  arrange_perm : forall l, Permutation (arrange l) l;
  (** host zone: seconds east of UTC in force at an epoch second, less than
      a day either way *)
  utcoffset : Z -> Z;
  utcoffset_range : forall t, -86400 < utcoffset t < 86400;
  (** [time.mktime]: the epoch second of a wall-clock second *)
  mktime : Z -> Z;
  (** session zone of the SQL functions, seconds east of UTC *)
  session_utcoffset : Z -> Z
}.

(** The engine that keeps the rows in their order and runs in UTC. *)
Definition utc_engine : Engine :=
  {| arrange := fun l => l;
     arrange_perm := fun l => Permutation_refl l;
     utcoffset := fun _ => 0;
     utcoffset_range := fun _ => conj eq_refl eq_refl;
     mktime := fun w => w;
     session_utcoffset := fun _ => 0 |}.

Module Py.

(** [datetime.min] and [datetime.max] as wall-clock seconds. *)
Definition min_wall : Z := -62135596800.
Definition max_wall : Z := 253402300799.

(** [n / 1000.0] for a Python int [n]. *)
Definition truediv_1000 (n : Z) : float64 :=
  Float64.div (Float64.of_Z n) (Float64.of_Z 1000).

(** Seconds and microseconds of a float timestamp, as
    [_PyTime_ObjectToTimeval] with [_PyTime_ROUND_HALF_EVEN] splits it. *)
Definition to_timeval (t : float64) : Z * Z :=
  let '(intpart, floatpart) := Float64.modf t in
  let us := Float64.round_half_even (Float64.mul floatpart (Float64.of_Z 1000000)) in
  if 1000000 <=? us then (intpart + 1, us - 1000000)
  else if us <? 0 then (intpart - 1, us + 1000000)
  else (intpart, us).

(** [datetime.fromtimestamp(t)]: the local date and time of [t]. *)
Definition fromtimestamp (eng : Engine) (t : float64) : result datetime :=
  if Float64.is_finite t then
    let '(sec, us) := to_timeval t in
    let w := sec + utcoffset eng sec in
    if (min_wall <=? w) && (w <=? max_wall)
    then Ok {| wall := w; microsecond := us |}
    else Raise (PythonException "ValueError")
  else Raise (PythonException "OverflowError").

End Py.

(** ** Timestamps inside the engine *)

Module Ts.

(** [TimestampType().toInternal(dt)] of pyspark for a naive [dt]:
    [int(time.mktime(dt.timetuple())) * 1000000 + dt.microsecond]. *)
Definition toInternal (eng : Engine) (dt : datetime) : Z :=
  mktime eng (wall dt) * 1000000 + microsecond dt.

(** Whole seconds and sub-second part of an internal timestamp. *)
Definition seconds (us : Z) : Z := us / 1000000.
Definition subsecond (us : Z) : Z := us mod 1000000.

Definition session_wall (eng : Engine) (us : Z) : Z :=
  seconds us + session_utcoffset eng (seconds us).

(** Days since 1970-01-01 to the proleptic Gregorian year, month, day. *)
Definition civil_from_days (days : Z) : Z * Z * Z :=
  let z := days + 719468 in
  let era := z / 146097 in
  let doe := z - era * 146097 in
  let yoe := (doe - doe / 1460 + doe / 36524 - doe / 146096) / 365 in
  let doy := doe - (365 * yoe + yoe / 4 - yoe / 100) in
  let mp := (5 * doy + 2) / 153 in
  let d := doy - (153 * mp + 2) / 5 + 1 in
  let m := if mp <? 10 then mp + 3 else mp - 9 in
  let y := yoe + era * 400 in
  (if m <=? 2 then y + 1 else y, m, d).

Definition days_from_civil (y m d : Z) : Z :=
  let y := if m <=? 2 then y - 1 else y in
  let era := y / 400 in
  let yoe := y - era * 400 in
  let doy := (153 * (if 2 <? m then m - 3 else m + 9) + 2) / 5 + d - 1 in
  let doe := yoe * 365 + yoe / 4 - yoe / 100 + doy in
  era * 146097 + doe - 719468.

Definition wall_days (w : Z) : Z := w / 86400.

Definition hour_of (w : Z) : Z := (w mod 86400) / 3600.
Definition year_of (w : Z) : Z := fst (fst (civil_from_days (wall_days w))).
Definition month_of (w : Z) : Z := snd (fst (civil_from_days (wall_days w))).
Definition dayofmonth_of (w : Z) : Z := snd (civil_from_days (wall_days w)).
(** 1 = Sunday, ..., 7 = Saturday *)
Definition dayofweek_of (w : Z) : Z := (wall_days w + 4) mod 7 + 1.
(** ISO 8601 week: the week of the year that holds its Thursday. *)
Definition weekofyear_of (w : Z) : Z :=
  let days := wall_days w in
  let thursday := days - (days + 3) mod 7 + 3 in
  let y := fst (fst (civil_from_days thursday)) in
  (thursday - days_from_civil y 1 1) / 7 + 1.

(** A built-in of [pyspark.sql.functions] on a timestamp cell: null for
    anything that is not a timestamp. *)
Definition field (eng : Engine) (f : Z -> Z) (v : value) : value :=
  match v with
  | VTimestamp us => VInt (f (session_wall eng us))
  | _ => VNull
  end.

End Ts.

Definition hour (eng : Engine) : string -> Column := builtin (Ts.field eng Ts.hour_of).
Definition dayofmonth (eng : Engine) : string -> Column := builtin (Ts.field eng Ts.dayofmonth_of).
Definition weekofyear (eng : Engine) : string -> Column := builtin (Ts.field eng Ts.weekofyear_of).
Definition month (eng : Engine) : string -> Column := builtin (Ts.field eng Ts.month_of).
Definition year (eng : Engine) : string -> Column := builtin (Ts.field eng Ts.year_of).
Definition dayofweek (eng : Engine) : string -> Column := builtin (Ts.field eng Ts.dayofweek_of).

(** ** SQL operators of the two queries *)

(** The key a row is ordered by: [ORDER BY c DESC] puts the larger key first
    and a null last.  The two columns the script orders by are a long ([ts])
    and a timestamp ([start_time]). *)
Definition order_key (v : value) : option Z :=
  match v with
  | VInt n | VLong n | VTimestamp n => Some n
  | _ => None
  end.

Definition key_le (a b : option Z) : Prop :=
  match a, b with
  | None, _ => True
  | Some _, None => False
  | Some x, Some y => x <= y
  end.

#[global] Instance key_le_dec : RelDecision key_le.
Proof. intros [x|] [y|]; simpl; apply _. Defined.

(** [r1] may stand before [r2] when ordering by column [i] descending. *)
Definition desc_by (i : nat) (r1 r2 : Row) : Prop :=
  key_le (order_key (cell i r2)) (order_key (cell i r1)).

#[global] Instance desc_by_dec (i : nat) : RelDecision (desc_by i).
Proof. intros r1 r2. unfold desc_by. apply _. Defined.

(** Row numbers 1, 2, ... in front of the rows.  (The engine's counter is a
    32-bit int; partitions are taken to stay below 2^31 rows.) *)
Definition number_rows (rs : list Row) : list Row :=
  imap (fun i r => VInt (Z.of_nat (S i)) :: r) rs.

(** The groups of [PARTITION BY]: rows with equal keys, nulls together. *)
Definition partitions (key : Row -> list value) (rs : list Row) : list (list Row) :=
  map (fun k => filter (fun r => key r = k) rs) (remove_dups (map key rs)).

(** [ROW_NUMBER() OVER (PARTITION BY partition_by ORDER BY order_by DESC) AS
    name], put in front of the columns of [df]. *)
Definition row_number (eng : Engine) (name : string) (partition_by : list string)
    (order_by : string) (df : DataFrame) : result DataFrame :=
  do pidx <- mapR (resolve df) partition_by;
  do oidx <- resolve df order_by;
  Ok {| columns := name :: columns df;
        rows := concat (map (fun g => number_rows (merge_sort (desc_by oidx) (arrange eng g)))
                            (partitions (pick pidx) (rows df))) |}.

(** [SELECT e1 AS a1, ..., en AS an], every [e] a column. *)
Definition select_as (items : list (string * string)) (df : DataFrame) : result DataFrame :=
  do idxs <- mapR (resolve df) (map fst items);
  Ok {| columns := map snd items; rows := map (pick idxs) (rows df) |}.

(** [FROM t alias]: the columns as [alias.column]. *)
Definition qualify (alias : string) (df : DataFrame) : DataFrame :=
  {| columns := map (fun c => alias ++ "." ++ c) (columns df); rows := rows df |}.

Definition on_true (lkey rkey : list value) : bool :=
  forallb (fun p => sql_eq (fst p) (snd p)) (combine lkey rkey).

(** The rows a left row gives in a left join: one per matching right row,
    and one padded with nulls when nothing matches. *)
Definition join_row (width : nat) (matches : list Row) (lr : Row) : list Row :=
  match matches with
  | [] => [(lr ++ replicate width VNull)%list]
  | _ => map (fun rr => (lr ++ rr)%list) matches
  end.

(** [l LEFT JOIN r ON l.a1 = r.b1 AND ...] *)
Definition left_join (l r : DataFrame) (on : list (string * string)) : result DataFrame :=
  do lidx <- mapR (resolve l) (map fst on);
  do ridx <- mapR (resolve r) (map snd on);
  Ok {| columns := (columns l ++ columns r)%list;
        rows := flat_map
                  (fun lr => join_row (length (columns r))
                               (List.filter (fun rr => on_true (pick lidx lr) (pick ridx rr)) (rows r))
                               lr)
                  (rows l) |}.

(** ** The session *)

(** What [df.write.parquet(path, mode='overwrite', partitionBy=...)] leaves
    at [path]. *)
Record Parquet : Type := mkParquet {
  table : DataFrame;
  partitionBy : list string
}.

Record Session : Type := mkSession {
  (** the frame [spark.read.json] infers for a path pattern *)
  json_source : string -> option DataFrame;
  (** temp views by name *)
  views : gmap string DataFrame;
  (** parquet locations written so far *)
  written : gmap string Parquet
}.

Definition M (A : Type) : Type := Session -> result A * Session.

Definition ret {A : Type} (a : A) : M A := fun s => (Ok a, s).

Definition bind {A B : Type} (m : M A) (k : A -> M B) : M B :=
  fun s =>
    match m s with
    | (Ok a, s') => k a s'
    | (Raise e, s') => (Raise e, s')
    end.

Definition lift {A : Type} (r : result A) : M A := fun s => (r, s).

Notation "'let*' x := m 'in' k" := (bind m (fun x => k))
  (at level 10, x name, m at level 100, k at level 200).

(** [spark.read.json(path)] *)
Definition read_json (path : string) : M DataFrame :=
  fun s =>
    match json_source s path with
    | Some df => (Ok df, s)
    | None => (Raise (AnalysisException "Path does not exist"), s)
    end.

(** [df.createOrReplaceTempView(name)] *)
Definition createOrReplaceTempView (name : string) (df : DataFrame) : M unit :=
  fun s =>
    (Ok tt, {| json_source := json_source s;
               views := <[name := df]> (views s);
               written := written s |}).

(** A table or view named in a query. *)
Definition from_view (name : string) : M DataFrame :=
  fun s =>
    match views s !! name with
    | Some df => (Ok df, s)
    | None => (Raise (AnalysisException "Table or view not found"), s)
    end.

(** [df.write.parquet(path, mode='overwrite', partitionBy=cols)] *)
Definition write_parquet (path : string) (cols : list string) (df : DataFrame) : M unit :=
  fun s =>
    match mapR (resolve df) cols with
    | Ok _ =>
        (Ok tt, {| json_source := json_source s;
                   views := views s;
                   written := <[path := {| table := df; partitionBy := cols |}]> (written s) |})
    | Raise e => (Raise e, s)
    end.

(** ** Path patterns *)

(** The components of a path, split at every slash. *)
Fixpoint segments (s : string) : list string :=
  match s with
  | EmptyString => [""]
  | String c s' =>
      if Ascii.eqb c "/" then "" :: segments s'
      else match segments s' with
           | seg :: rest => String c seg :: rest
           | [] => [String c ""]
           end
  end.

(** The part of [path] that follows the root it starts with. *)
Fixpoint below (root path : string) : string :=
  match root, path with
  | String _ root', String _ path' => below root' path'
  | _, _ => path
  end.

(** Directory levels of a pattern that are a bare wildcard (the last
    component names the files). *)
Definition wildcard_dirs (pattern : string) : nat :=
  length (List.filter (String.eqb "*") (removelast (segments pattern))).

(** ** The input records *)

(** One line of the song data set. *)
Record SongRecord : Type := mkSongRecord {
  s_song_id : option string;
  s_title : option string;
  s_artist_id : option string;
  s_year : option Z;
  s_duration : option float64;
  s_artist_name : option string;
  s_artist_location : option string;
  s_artist_latitude : option float64;
  s_artist_longitude : option float64
}.

(** One line of the event log. *)
Record EventRecord : Type := mkEventRecord {
  e_ts : option Z;
  e_userId : option string;
  e_firstName : option string;
  e_lastName : option string;
  e_gender : option string;
  e_level : option string;
  e_page : option string;
  e_song : option string;
  e_length : option float64;
  e_sessionId : option Z;
  e_location : option string;
  e_userAgent : option string
}.

(** The frames the JSON reader infers: one column per field, in the
    alphabetical order of the inferred schema, a missing field null. *)
Definition song_columns : list string :=
  ["artist_id"; "artist_latitude"; "artist_location"; "artist_longitude";
   "artist_name"; "duration"; "song_id"; "title"; "year"].

Definition song_row (r : SongRecord) : Row :=
  [ostring (s_artist_id r); odouble (s_artist_latitude r); ostring (s_artist_location r);
   odouble (s_artist_longitude r); ostring (s_artist_name r); odouble (s_duration r);
   ostring (s_song_id r); ostring (s_title r); olong (s_year r)].

Definition song_frame (recs : list SongRecord) : DataFrame :=
  {| columns := song_columns; rows := map song_row recs |}.

Definition event_columns : list string :=
  ["firstName"; "gender"; "lastName"; "length"; "level"; "location"; "page";
   "sessionId"; "song"; "ts"; "userAgent"; "userId"].

Definition event_row (e : EventRecord) : Row :=
  [ostring (e_firstName e); ostring (e_gender e); ostring (e_lastName e);
   odouble (e_length e); ostring (e_level e); ostring (e_location e);
   ostring (e_page e); olong (e_sessionId e); ostring (e_song e); olong (e_ts e);
   ostring (e_userAgent e); ostring (e_userId e)].

Definition event_frame (events : list EventRecord) : DataFrame :=
  {| columns := event_columns; rows := map event_row events |}.

(** ** etl.py *)

(** Line 39: the pattern of the song files. *)
Definition song_data_path (input_data : string) : string :=
  input_data ++ "/song_data/*/*/*/*.json".

(** Line 81: the pattern of the log files. *)
Definition log_data_path (input_data : string) : string :=
  input_data ++ "log_data/*/*/*.json".

Definition process_song_data (input_data output_data : string) : M unit :=
  let song_data := song_data_path input_data in
  let* df := read_json song_data in
  let* songs_table := lift (do t <- select ["song_id"; "title"; "artist_id"; "year"; "duration"] df;
                        Ok (distinct t)) in
  let* _ := write_parquet (output_data ++ "songs") ["year"; "artist_id"] songs_table in
  let* artists_table := lift (do t <- select ["artist_id"; "artist_name"; "artist_location";
                                          "artist_latitude"; "artist_longitude"] df;
                          Ok (distinct t)) in
  let artists_table :=
    withColumnRenamed "artist_longitude" "longitude"
      (withColumnRenamed "artist_latitude" "latitude"
        (withColumnRenamed "artist_location" "location"
          (withColumnRenamed "artist_name" "name" artists_table))) in
  let* _ := write_parquet (output_data ++ "artists") [] artists_table in
  createOrReplaceTempView "songs" songs_table.

(** Line 122: [lambda ts: datetime.fromtimestamp(ts / 1000.0)], returned as
    a [TimestampType].  A null [ts] reaches the lambda as [None]. *)
Definition get_timestamp (eng : Engine) (ts : value) : result value :=
  match ts with
  | VInt n | VLong n =>
      do dt <- Py.fromtimestamp eng (Py.truediv_1000 n);
      Ok (VTimestamp (Ts.toInternal eng dt))
  | VDouble d =>
      do dt <- Py.fromtimestamp eng (Float64.div d (Float64.of_Z 1000));
      Ok (VTimestamp (Ts.toInternal eng dt))
  | VNull | VString _ | VTimestamp _ => Raise (PythonException "TypeError")
  end.

(** Lines 95-115: the query over the view [users]. *)
Definition users_sql (eng : Engine) (users : DataFrame) : result DataFrame :=
  do w <- row_number eng "timeOrderRowNum" ["userId"] "ts" users;
  do actual_levels <-
    select_as [("timeOrderRowNum", "timeOrderRowNum"); ("userId", "userId");
               ("firstName", "firstName"); ("lastName", "lastName");
               ("gender", "gender"); ("level", "level")] w;
  do first <- where_eq "timeOrderRowNum" (VInt 1) actual_levels;
  do t <- select_as [("userId", "user_id"); ("firstName", "first_name");
                     ("lastName", "last_name"); ("gender", "gender");
                     ("level", "level")] first;
  Ok (distinct t).

Definition users_query (eng : Engine) : M DataFrame :=
  let* users := from_view "users" in
  lift (users_sql eng users).

(** Lines 156-175: the query over the views [stage_songplay] and [songs]. *)
Definition songplays_sql (eng : Engine) (ss s : DataFrame) : result DataFrame :=
  do joined <- left_join (qualify "ss" ss) (qualify "s" s)
                 [("ss.song", "s.title"); ("ss.length", "s.duration")];
  do numbered <- row_number eng "songplay_id" [] "ss.start_time" joined;
  select_as [("songplay_id", "songplay_id"); ("ss.start_time", "start_time");
             ("ss.userId", "user_id"); ("ss.level", "level");
             ("s.song_id", "song_id"); ("s.artist_id", "artist_id");
             ("ss.sessionId", "session_id"); ("ss.location", "location");
             ("ss.userAgent", "user_agent"); ("ss.year", "year");
             ("ss.month", "month")] numbered.

Definition songplays_query (eng : Engine) : M DataFrame :=
  let* ss := from_view "stage_songplay" in
  let* s := from_view "songs" in
  lift (songplays_sql eng ss s).

(** Lines 121-182 of [process_log_data]: what follows the writing of the
    users, on the filtered frame [df].  ([get_datetime], line 127, is
    defined and never called.  Line 150 selects [song] twice: both columns
    of the view are the one attribute, and [ss.song] names it.) *)
Definition process_log_data_tail (eng : Engine) (output_data : string)
    (df : DataFrame) : M unit :=
  let* df := lift (withColumn "start_time" (udf (get_timestamp eng) "ts") df) in
  let* df := lift (do df <- withColumn "date_time" (udf (get_timestamp eng) "ts") df;
                   do df <- withColumn "hour" (hour eng "date_time") df;
                   do df <- withColumn "day" (dayofmonth eng "date_time") df;
                   do df <- withColumn "week" (weekofyear eng "date_time") df;
                   do df <- withColumn "month" (month eng "date_time") df;
                   do df <- withColumn "year" (year eng "date_time") df;
                   withColumn "weekday" (dayofweek eng "date_time") df) in
  let* time_table := lift (do t <- select ["start_time"; "hour"; "day"; "week";
                                           "month"; "year"; "weekday"] df;
                           Ok (distinct t)) in
  let* _ := write_parquet (output_data ++ "times") ["year"; "month"] time_table in
  let* stage := lift (select ["start_time"; "song"; "page"; "userId"; "level";
                              "sessionId"; "location"; "userAgent"; "month"; "year";
                              "song"; "length"] df) in
  let* _ := createOrReplaceTempView "stage_songplay" stage in
  let* songplays_table := songplays_query eng in
  write_parquet (output_data ++ "songplays") ["year"; "month"] songplays_table.

(** Lines 72-182. *)
Definition process_log_data (eng : Engine) (input_data output_data : string) : M unit :=
  let log_data := log_data_path input_data in
  let* df := read_json log_data in
  let* df := lift (where_eq "page" (VString "NextSong") df) in
  let* users_view := lift (select ["ts"; "userId"; "firstName"; "lastName"; "gender"; "level"] df) in
  let* _ := createOrReplaceTempView "users" users_view in
  let* users_table := users_query eng in
  let* _ := write_parquet (output_data ++ "users") [] users_table in
  process_log_data_tail eng output_data df.

(** Line 189: [bucket_str_format.format(bucket)]. *)
Definition bucket_str_format (bucket : string) : string := "s3a://" ++ bucket ++ "/".

Definition main (eng : Engine) (input_bucket output_bucket : string) : M unit :=
  let input_data := bucket_str_format input_bucket in
  let output_data := bucket_str_format output_bucket in
  let* _ := process_song_data input_data output_data in
  process_log_data eng input_data output_data.

(** ** Vocabulary of the statements *)

(** The cell of row [r] in the column of [df] called [c]. *)
Definition field (df : DataFrame) (c : string) (r : Row) : value :=
  match index_of c (columns df) with
  | Some i => cell i r
  | None => VNull
  end.

(** The table found at a parquet location. *)
Definition written_table (s : Session) (path : string) : option DataFrame :=
  table <$> (written s !! path).

(** The session reads [recs] as the song data and [events] as the log. *)
Definition Reads (s : Session) (input_data : string)
    (recs : list SongRecord) (events : list EventRecord) : Prop :=
  json_source s (song_data_path input_data) = Some (song_frame recs) /\
  json_source s (log_data_path input_data) = Some (event_frame events).

(** The events the filter of line 87 keeps. *)
Definition is_play (e : EventRecord) : bool :=
  sql_eq (ostring (e_page e)) (VString "NextSong").

Definition plays (events : list EventRecord) : list EventRecord :=
  List.filter is_play events.

(** The timestamp UDF returns on every event that is kept. *)
Definition timestamps_ok (eng : Engine) (events : list EventRecord) : bool :=
  forallb (fun e => match get_timestamp eng (olong (e_ts e)) with
                    | Ok _ => true
                    | Raise _ => false
                    end)
          (plays events).

(** The projections the two song-side tables are made of. *)
Definition songs_row (r : SongRecord) : Row :=
  [ostring (s_song_id r); ostring (s_title r); ostring (s_artist_id r);
   olong (s_year r); odouble (s_duration r)].

Definition artists_row (r : SongRecord) : Row :=
  [ostring (s_artist_id r); ostring (s_artist_name r); ostring (s_artist_location r);
   odouble (s_artist_latitude r); odouble (s_artist_longitude r)].

(** The state the song transform leaves. *)
Definition songs_table (recs : list SongRecord) : DataFrame :=
  {| columns := ["song_id"; "title"; "artist_id"; "year"; "duration"];
     rows := remove_dups (map songs_row recs) |}.

Definition artists_table (recs : list SongRecord) : DataFrame :=
  {| columns := ["artist_id"; "name"; "location"; "latitude"; "longitude"];
     rows := remove_dups (map artists_row recs) |}.

Definition after_song_data (output_data : string) (recs : list SongRecord)
    (s : Session) : Session :=
  {| json_source := json_source s;
     views := <["songs" := songs_table recs]> (views s);
     written :=
       <[output_data ++ "artists" := {| table := artists_table recs; partitionBy := [] |}]>
         (<[output_data ++ "songs" :=
              {| table := songs_table recs; partitionBy := ["year"; "artist_id"] |}]>
            (written s)) |}.

(** The frames the log transform goes through, row by row. *)
Definition users_view_row (e : EventRecord) : Row :=
  [olong (e_ts e); ostring (e_userId e); ostring (e_firstName e);
   ostring (e_lastName e); ostring (e_gender e); ostring (e_level e)].

Definition users_view (events : list EventRecord) : DataFrame :=
  {| columns := ["ts"; "userId"; "firstName"; "lastName"; "gender"; "level"];
     rows := map users_view_row (plays events) |}.


(** The row numbered 1 in each group of a window ordered by column [i]. *)
Definition first_rows (eng : Engine) (i : nat) (groups : list (list Row)) : list Row :=
  flat_map (fun g => match merge_sort (desc_by i) (arrange eng g) with
                     | [] => []
                     | r :: _ => [r]
                     end) groups.

Definition users_table (eng : Engine) (events : list EventRecord) : DataFrame :=
  {| columns := ["user_id"; "first_name"; "last_name"; "gender"; "level"];
     rows := remove_dups
               (map (pick [1; 2; 3; 4; 5]%nat)
                    (first_rows eng 0
                       (partitions (pick [1%nat]) (map users_view_row (plays events))))) |}.

(** The internal timestamp the UDF gives an event (0 where it raises). *)
Definition start_us (eng : Engine) (e : EventRecord) : Z :=
  match get_timestamp eng (olong (e_ts e)) with
  | Ok (VTimestamp t) => t
  | _ => 0
  end.

Definition calendar (eng : Engine) (f : Z -> Z) (e : EventRecord) : value :=
  VInt (f (Ts.session_wall eng (start_us eng e))).

Definition time_row (eng : Engine) (e : EventRecord) : Row :=
  [VTimestamp (start_us eng e); calendar eng Ts.hour_of e;
   calendar eng Ts.dayofmonth_of e; calendar eng Ts.weekofyear_of e;
   calendar eng Ts.month_of e; calendar eng Ts.year_of e;
   calendar eng Ts.dayofweek_of e].

Definition times_table (eng : Engine) (events : list EventRecord) : DataFrame :=
  {| columns := ["start_time"; "hour"; "day"; "week"; "month"; "year"; "weekday"];
     rows := remove_dups (map (time_row eng) (plays events)) |}.

Definition stage_row (eng : Engine) (e : EventRecord) : Row :=
  [VTimestamp (start_us eng e); ostring (e_song e); ostring (e_page e);
   ostring (e_userId e); ostring (e_level e); olong (e_sessionId e);
   ostring (e_location e); ostring (e_userAgent e); calendar eng Ts.month_of e;
   calendar eng Ts.year_of e; ostring (e_song e); odouble (e_length e)].

Definition stage_songplay (eng : Engine) (events : list EventRecord) : DataFrame :=
  {| columns := ["start_time"; "song"; "page"; "userId"; "level"; "sessionId";
                 "location"; "userAgent"; "month"; "year"; "song"; "length"];
     rows := map (stage_row eng) (plays events) |}.

(** The song rows the join condition accepts for a staged row. *)
Definition matching (songs : list Row) (lr : Row) : list Row :=
  List.filter (fun rr => on_true (pick [1; 11]%nat lr) (pick [1; 4]%nat rr)) songs.

Definition joined_rows (songs : list Row) (staged : list Row) : list Row :=
  flat_map (fun lr => join_row 5 (matching songs lr) lr) staged.

Definition songplays_table (eng : Engine) (recs : list SongRecord)
    (events : list EventRecord) : DataFrame :=
  {| columns := ["songplay_id"; "start_time"; "user_id"; "level"; "song_id";
                 "artist_id"; "session_id"; "location"; "user_agent"; "year"; "month"];
     rows := map (pick [0; 1; 4; 5; 13; 15; 6; 7; 8; 10; 9]%nat)
               (concat (map (fun g => number_rows (merge_sort (desc_by 0) (arrange eng g)))
                            (partitions (pick [])
                               (joined_rows (rows (songs_table recs))
                                            (map (stage_row eng) (plays events)))))) |}.

(** The state the log transform leaves once the users are written, and the
    one it leaves when it runs to its end. *)
Definition after_users (output_data : string) (eng : Engine)
    (events : list EventRecord) (s : Session) : Session :=
  {| json_source := json_source s;
     views := <["users" := users_view events]> (views s);
     written :=
       <[output_data ++ "users" := {| table := users_table eng events; partitionBy := [] |}]>
         (written s) |}.

Definition after_log_data (output_data : string) (eng : Engine)
    (recs : list SongRecord) (events : list EventRecord) (s : Session) : Session :=
  {| json_source := json_source s;
     views := <["stage_songplay" := stage_songplay eng events]>
                (<["users" := users_view events]> (views s));
     written :=
       <[output_data ++ "songplays" :=
           {| table := songplays_table eng recs events; partitionBy := ["year"; "month"] |}]>
         (<[output_data ++ "times" :=
              {| table := times_table eng events; partitionBy := ["year"; "month"] |}]>
            (<[output_data ++ "users" :=
                 {| table := users_table eng events; partitionBy := [] |}]>
               (written s))) |}.


(** Two sessions that differ at most in the JSON data behind the paths. *)
Definition same_tables (s1 s2 : Session) : Prop :=
  views s1 = views s2 /\ written s1 = written s2.

(** A computation that does not look at the JSON data. *)
Definition source_blind {A : Type} (m : M A) : Prop :=
  forall s1 s2, same_tables s1 s2 ->
    fst (m s1) = fst (m s2) /\ same_tables (snd (m s1)) (snd (m s2)).

(** The frame the filter of line 87 leaves. *)
Definition plays_frame (events : list EventRecord) : DataFrame :=
  {| columns := event_columns; rows := map event_row (plays events) |}.

(** The state [main] leaves when it runs to its end. *)
Definition after_main (eng : Engine) (output_bucket : string)
    (recs : list SongRecord) (events : list EventRecord) (s : Session) : Session :=
  after_log_data (bucket_str_format output_bucket) eng recs events
    (after_song_data (bucket_str_format output_bucket) recs s).

(** A fresh session over a storage that holds [recs] and [events] under
    [input_data]. *)
Definition session_of (input_data : string) (recs : list SongRecord)
    (events : list EventRecord) : Session :=
  {| json_source := fun p =>
       if String.eqb p (song_data_path input_data) then Some (song_frame recs)
       else if String.eqb p (log_data_path input_data) then Some (event_frame events)
       else None;
     views := ∅;
     written := ∅ |}.

(** The records of the end-to-end scenario. *)
Definition scenario_song : SongRecord :=
  {| s_song_id := Some "S1"; s_title := Some "Test"; s_artist_id := Some "A1";
     s_year := Some 2000; s_duration := Some (Float64.of_Z 200);
     s_artist_name := Some "Artist1"; s_artist_location := Some "NYC";
     s_artist_latitude := Some (Float64.of_Z 1);
     s_artist_longitude := Some (Float64.of_Z 2) |}.

Definition scenario_event : EventRecord :=
  {| e_ts := Some 1000000000000; e_userId := Some "U1"; e_firstName := Some "Jo";
     e_lastName := Some "Do"; e_gender := Some "F"; e_level := Some "free";
     e_page := Some "NextSong"; e_song := Some "Test";
     e_length := Some (Float64.of_Z 200); e_sessionId := Some 1;
     e_location := Some "NYC"; e_userAgent := Some "UA" |}.



(** The session [s] over a storage whose log holds [events]. *)
Definition with_log (s : Session) (input_data : string)
    (events : list EventRecord) : Session :=
  {| json_source := fun p =>
       if String.eqb p (log_data_path input_data) then Some (event_frame events)
       else json_source s p;
     views := views s;
     written := written s |}.


Definition scenario_later : EventRecord :=
  {| e_ts := Some 1000000001999; e_userId := Some "U1"; e_firstName := Some "Jo";
     e_lastName := Some "Do"; e_gender := Some "F"; e_level := Some "paid";
     e_page := Some "NextSong"; e_song := Some "Other";
     e_length := Some (Float64.of_Z 100); e_sessionId := Some 2;
     e_location := Some "NYC"; e_userAgent := Some "UA" |}.

Definition scenario_home : EventRecord :=
  {| e_ts := None; e_userId := Some "U2"; e_firstName := None;
     e_lastName := None; e_gender := None; e_level := Some "free";
     e_page := Some "Home"; e_song := None; e_length := None;
     e_sessionId := Some 3; e_location := None; e_userAgent := Some "UA" |}.

Definition scenario_anonymous : EventRecord :=
  {| e_ts := Some 1000000002000; e_userId := None; e_firstName := None;
     e_lastName := None; e_gender := None; e_level := Some "free";
     e_page := Some "NextSong"; e_song := Some "Test";
     e_length := Some (Float64.of_Z 200); e_sessionId := Some 4;
     e_location := None; e_userAgent := Some "UA" |}.


(** ** Rounding to the nearest binary64 value *)

(** The integer nearest to [a / b], a tie going to the even one. *)
Definition rne (a b : Z) : Z :=
  match 2 * (a mod b) ?= b with
  | Lt => a / b
  | Eq => if Z.even (a / b) then a / b else a / b + 1
  | Gt => a / b + 1
  end.

(** The round and sticky bits [r], [s] tell where a remainder [rem] stands in
    [0, b): at 0, below the middle, at the middle, above it. *)
Definition placed (rem b : Z) (r s : bool) : Prop :=
  0 <= rem < b /\
  match r, s with
  | false, false => rem = 0
  | false, true => 0 < 2 * rem < b
  | true, false => 2 * rem = b
  | true, true => b < 2 * rem
  end.

(** After [k] shifts, a rounding record holds the quotient of [N] by
    [D * 2^k] and tells where the remainder stands. *)
Definition located (N D : Z) (k : nat) (mrs : shr_record) : Prop :=
  shr_m mrs = N / (D * 2 ^ Z.of_nat k) /\
  placed (N mod (D * 2 ^ Z.of_nat k)) (D * 2 ^ Z.of_nat k) (shr_r mrs) (shr_s mrs).

(** ** The job as a whole *)

(** A computation changes at most the parquet locations [paths] and the
    views [names], and never the JSON data, however it ends. *)
Definition touches_only {A : Type} (paths names : list string) (m : M A) : Prop :=
  forall s,
    json_source (snd (m s)) = json_source s /\
    (forall p, p ∉ paths -> written (snd (m s)) !! p = written s !! p) /\
    (forall v, v ∉ names -> views (snd (m s)) !! v = views s !! v).

(** Lines 11-15 and 185-199: the script.  [config section option] is what
    [config[section][option]] evaluates to once dl.cfg is read: a value, or
    the exception of the parser.  The process holds the environment
    variables and the session [getOrCreate] returns. *)
Definition Config : Type := string -> string -> result string.

Record Process := mkProcess { environ : gmap string string; spark : Session }.

Definition script (eng : Engine) (config : Config) (p : Process) : result unit * Process :=
  match config "S3" "AWS_ACCESS_KEY_ID" with
  | Raise e => (Raise e, p)
  | Ok key =>
      let p := {| environ := <["AWS_ACCESS_KEY_ID" := key]> (environ p);
                  spark := spark p |} in
      match config "S3" "AWS_SECRET_ACCESS_KEY" with
      | Raise e => (Raise e, p)
      | Ok secret =>
          let p := {| environ := <["AWS_SECRET_ACCESS_KEY" := secret]> (environ p);
                      spark := spark p |} in
          match config "S3" "input_bucket" with
          | Raise e => (Raise e, p)
          | Ok input_bucket =>
              match config "S3" "output_bucket" with
              | Raise e => (Raise e, p)
              | Ok output_bucket =>
                  let r := main eng input_bucket output_bucket (spark p) in
                  (fst r, {| environ := environ p; spark := snd r |})
              end
          end
      end
  end.

(** The four settings of dl.cfg the script looks up. *)
Definition settings : list string :=
  ["AWS_ACCESS_KEY_ID"; "AWS_SECRET_ACCESS_KEY"; "input_bucket"; "output_bucket"].

(** The locations and the views of the two transforms. *)
Definition song_locations (output_data : string) : list string :=
  [output_data ++ "songs"; output_data ++ "artists"].

Definition log_locations (output_data : string) : list string :=
  [output_data ++ "users"; output_data ++ "times"; output_data ++ "songplays"].





(** An engine whose host and session run one hour east of UTC. *)
Definition eastern_engine : Engine :=
  {| arrange := fun l => l;
     arrange_perm := fun l => Permutation_refl l;
     utcoffset := fun _ => 3600;
     utcoffset_range := fun _ => conj eq_refl eq_refl;
     mktime := fun w => w - 3600;
     session_utcoffset := fun _ => 3600 |}.

(** * Proofs *)

(** ** The monads and the frame operations *)

Lemma mapR_map {A B C : Type} (f : B -> result C) (g : A -> B) (l : list A) :
  mapR f (map g l) = mapR (fun x => f (g x)) l.
Proof.
  induction l as [|x l IH]; simpl; [reflexivity|].
  rewrite IH. reflexivity.
Qed.

Lemma mapR_ok {A B : Type} (f : A -> result B) (g : A -> B) (l : list A) :
  (forall x, In x l -> f x = Ok (g x)) -> mapR f l = Ok (map g l).
Proof.
  induction l as [|x l IH]; intros H; simpl; [reflexivity|].
  rewrite (H x) by (left; reflexivity). simpl.
  rewrite IH by (intros y Hy; apply H; right; exact Hy). reflexivity.
Qed.

Lemma mapR_resolve_columns (df : DataFrame) (cs cols : list string) :
  columns df = cs ->
  mapR (resolve df) cols = mapR (resolve (mkDataFrame cs [])) cols.
Proof.
  intros <-. induction cols as [|c cols IH]; simpl; [reflexivity|].
  rewrite IH. reflexivity.
Qed.

Lemma select_map {A : Type} (cols cs : list string) (g : A -> Row) (l : list A)
    (idxs : list nat) :
  mapR (resolve (mkDataFrame cs [])) cols = Ok idxs ->
  select cols {| columns := cs; rows := map g l |}
  = Ok {| columns := cols; rows := map (fun x => pick idxs (g x)) l |}.
Proof.
  intros H. unfold select.
  rewrite (mapR_resolve_columns _ cs) by reflexivity.
  rewrite H. simpl. rewrite map_map. reflexivity.
Qed.

(** ** The song transform *)

Lemma process_song_data_runs (input_data output_data : string)
    (recs : list SongRecord) (s : Session) :
  json_source s (song_data_path input_data) = Some (song_frame recs) ->
  process_song_data input_data output_data s
  = (Ok tt, after_song_data output_data recs s).
Proof.
  intros Hsrc. unfold process_song_data, bind, read_json, lift.
  rewrite Hsrc. unfold song_frame.
  rewrite (select_map _ _ _ _ [6; 7; 0; 8; 5]%nat) by reflexivity.
  rewrite (select_map _ _ _ _ [0; 4; 2; 1; 3]%nat) by reflexivity.
  reflexivity.
Qed.

(** ** The log transform, step by step *)

Lemma filter_map_swap {A B : Type} (f : B -> bool) (g : A -> B) (l : list A) :
  List.filter f (map g l) = map g (List.filter (fun x => f (g x)) l).
Proof.
  induction l as [|x l IH]; simpl; [reflexivity|].
  destruct (f (g x)); simpl; rewrite IH; reflexivity.
Qed.

Lemma where_page (events : list EventRecord) :
  where_eq "page" (VString "NextSong") (event_frame events)
  = Ok {| columns := event_columns; rows := map event_row (plays events) |}.
Proof.
  unfold where_eq, event_frame. simpl.
  rewrite filter_map_swap. reflexivity.
Qed.

Lemma users_view_select (events : list EventRecord) :
  select ["ts"; "userId"; "firstName"; "lastName"; "gender"; "level"]
    {| columns := event_columns; rows := map event_row (plays events) |}
  = Ok (users_view events).
Proof.
  unfold event_columns.
  erewrite select_map by reflexivity. reflexivity.
Qed.

Lemma users_sql_raw (eng : Engine) (events : list EventRecord) :
  users_sql eng (users_view events)
  = Ok {| columns := ["user_id"; "first_name"; "last_name"; "gender"; "level"];
          rows := remove_dups
                    (map (pick [1; 2; 3; 4; 5]%nat)
                       (List.filter (fun r => sql_eq (cell 0 r) (VInt 1))
                          (map (pick [0; 2; 3; 4; 5; 6]%nat)
                             (concat
                                (map (fun g => number_rows (merge_sort (desc_by 0) (arrange eng g)))
                                   (partitions (pick [1%nat])
                                      (map users_view_row (plays events)))))))) |}.
Proof. reflexivity. Qed.

(** ** Row numbers *)

Lemma rank_filter_cons (n : Z) (r : Row) (rest : list Row) :
  List.filter (fun r => sql_eq (cell 0 r) (VInt 1))
    (pick [0; 2; 3; 4; 5; 6]%nat (VInt n :: r) :: rest)
  = if bool_decide (n = 1)
    then pick [0; 2; 3; 4; 5; 6]%nat (VInt n :: r)
         :: List.filter (fun r => sql_eq (cell 0 r) (VInt 1)) rest
    else List.filter (fun r => sql_eq (cell 0 r) (VInt 1)) rest.
Proof.
  cbn [List.filter pick map cell nth sql_eq].
  destruct (bool_decide_reflect (n = 1)) as [->|Hn].
  - rewrite bool_decide_eq_true_2 by reflexivity. reflexivity.
  - rewrite bool_decide_eq_false_2 by (intros [= ?]; contradiction). reflexivity.
Qed.

Lemma rank_one_tail (l : list Row) (k : nat) :
  (1 <= k)%nat ->
  List.filter (fun r => sql_eq (cell 0 r) (VInt 1))
    (map (pick [0; 2; 3; 4; 5; 6]%nat)
       (imap (fun i r => VInt (Z.of_nat (S (k + i))) :: r) l))
  = [].
Proof.
  revert k. induction l as [|r l IH]; intros k Hk; [reflexivity|].
  rewrite imap_cons. cbn [map]. rewrite rank_filter_cons.
  rewrite bool_decide_eq_false_2 by lia.
  rewrite (imap_ext _ (fun i r => VInt (Z.of_nat (S (S k + i))) :: r)).
  - apply IH. lia.
  - intros i x _. unfold compose. do 3 f_equal. lia.
Qed.

Lemma rank_one_group (l : list Row) :
  map (pick [1; 2; 3; 4; 5]%nat)
    (List.filter (fun r => sql_eq (cell 0 r) (VInt 1))
       (map (pick [0; 2; 3; 4; 5; 6]%nat) (number_rows l)))
  = match l with
    | [] => []
    | r :: _ => [pick [1; 2; 3; 4; 5]%nat r]
    end.
Proof.
  destruct l as [|r l]; [reflexivity|].
  unfold number_rows. rewrite imap_cons. cbn [map]. rewrite rank_filter_cons.
  rewrite bool_decide_eq_true_2 by reflexivity.
  rewrite (imap_ext _ (fun i r => VInt (Z.of_nat (S (1 + i))) :: r))
    by (intros; reflexivity).
  rewrite rank_one_tail by lia. reflexivity.
Qed.

Lemma rank_one_groups (eng : Engine) (groups : list (list Row)) :
  map (pick [1; 2; 3; 4; 5]%nat)
    (List.filter (fun r => sql_eq (cell 0 r) (VInt 1))
       (map (pick [0; 2; 3; 4; 5; 6]%nat)
          (concat (map (fun g => number_rows (merge_sort (desc_by 0) (arrange eng g)))
                       groups))))
  = map (pick [1; 2; 3; 4; 5]%nat) (first_rows eng 0 groups).
Proof.
  induction groups as [|g groups IH]; [reflexivity|].
  cbn [map concat first_rows flat_map].
  rewrite !map_app, List.filter_app, map_app, IH, rank_one_group.
  destruct (merge_sort (desc_by 0) (arrange eng g)); reflexivity.
Qed.

Lemma users_sql_runs (eng : Engine) (events : list EventRecord) :
  users_sql eng (users_view events) = Ok (users_table eng events).
Proof.
  rewrite users_sql_raw. unfold users_table.
  rewrite rank_one_groups. reflexivity.
Qed.

Lemma bind_ok {A B : Type} (m : M A) (k : A -> M B) (s s' : Session) (a : A) :
  m s = (Ok a, s') -> bind m k s = k a s'.
Proof. intros H. unfold bind. rewrite H. reflexivity. Qed.

Lemma lift_ok {A : Type} (r : result A) (a : A) (s : Session) :
  r = Ok a -> lift r s = (Ok a, s).
Proof. intros ->. reflexivity. Qed.

Lemma withColumn_new {A : Type} (name : string) (e : Column) (cs : list string)
    (g : A -> Row) (l : list A) (f : Row -> result value) (h : A -> value) :
  index_of name cs = None ->
  e {| columns := cs; rows := map g l |} = Ok f ->
  (forall x, In x l -> f (g x) = Ok (h x)) ->
  withColumn name e {| columns := cs; rows := map g l |}
  = Ok {| columns := (cs ++ [name])%list; rows := map (fun x => (g x ++ [h x])%list) l |}.
Proof.
  intros Hidx He Hf. unfold withColumn. rewrite He. cbn [rbind columns rows].
  rewrite Hidx, mapR_map.
  rewrite (mapR_ok _ (fun x => (g x ++ [h x])%list)); [reflexivity|].
  intros x Hx. rewrite (Hf x Hx). reflexivity.
Qed.

Lemma get_timestamp_is_timestamp (eng : Engine) (v x : value) :
  get_timestamp eng v = Ok x -> exists t, x = VTimestamp t.
Proof.
  unfold get_timestamp.
  destruct v; try discriminate;
    (destruct (Py.fromtimestamp eng _); cbn [rbind]; [|discriminate];
     intros [= <-]; eexists; reflexivity).
Qed.

Lemma timestamps_ok_start (eng : Engine) (events : list EventRecord) :
  timestamps_ok eng events = true ->
  forall e, In e (plays events) ->
    get_timestamp eng (olong (e_ts e)) = Ok (VTimestamp (start_us eng e)).
Proof.
  unfold timestamps_ok. rewrite forallb_forall. intros H e He.
  specialize (H e He). unfold start_us.
  destruct (get_timestamp eng (olong (e_ts e))) as [x|] eqn:E; [|discriminate].
  destruct (get_timestamp_is_timestamp _ _ _ E) as [t ->]. reflexivity.
Qed.

Lemma songplays_sql_runs (eng : Engine) (recs : list SongRecord)
    (events : list EventRecord) :
  songplays_sql eng (stage_songplay eng events) (songs_table recs)
  = Ok (songplays_table eng recs events).
Proof. reflexivity. Qed.

Lemma process_log_data_tail_runs (eng : Engine) (output_data : string)
    (recs : list SongRecord) (events : list EventRecord) (s : Session) :
  timestamps_ok eng events = true ->
  views s !! "songs" = Some (songs_table recs) ->
  process_log_data_tail eng output_data
    {| columns := event_columns; rows := map event_row (plays events) |} s
  = (Ok tt,
     {| json_source := json_source s;
        views := <["stage_songplay" := stage_songplay eng events]> (views s);
        written :=
          <[output_data ++ "songplays" :=
              {| table := songplays_table eng recs events;
                 partitionBy := ["year"; "month"] |}]>
            (<[output_data ++ "times" :=
                 {| table := times_table eng events;
                    partitionBy := ["year"; "month"] |}]>
               (written s)) |}).
Proof.
  intros Hts Hsongs.
  pose proof (timestamps_ok_start eng events Hts) as Hstart.
  unfold process_log_data_tail, event_columns.
  erewrite bind_ok; cycle 1.
  { apply lift_ok.
    eapply (withColumn_new _ _ _ _ _ _ (fun e => VTimestamp (start_us eng e)));
      [reflexivity|reflexivity|].
    intros e He. exact (Hstart e He). }
  erewrite bind_ok; cycle 1.
  { apply lift_ok.
    erewrite (withColumn_new _ _ _ _ _ _ (fun e => VTimestamp (start_us eng e)));
      [|reflexivity|reflexivity|intros e He; exact (Hstart e He)].
    cbn [rbind app].
    do 5 (erewrite withColumn_new;
          [|reflexivity|reflexivity|intros e He; reflexivity]; cbn [rbind app]).
    erewrite withColumn_new;
      [|reflexivity|reflexivity|intros e He; reflexivity].
    reflexivity. }
  erewrite bind_ok; cycle 1.
  { apply lift_ok. erewrite select_map by reflexivity. reflexivity. }
  erewrite bind_ok; cycle 1.
  { reflexivity. }
  erewrite bind_ok; cycle 1.
  { apply lift_ok. erewrite select_map by reflexivity. reflexivity. }
  erewrite bind_ok; cycle 1.
  { reflexivity. }
  erewrite bind_ok; cycle 1.
  { unfold songplays_query.
    erewrite bind_ok; cycle 1.
    { unfold from_view. cbn [views]. rewrite lookup_insert_eq. reflexivity. }
    erewrite bind_ok; cycle 1.
    { unfold from_view. cbn [views].
      rewrite lookup_insert_ne by discriminate. rewrite Hsongs. reflexivity. }
    apply lift_ok. apply songplays_sql_runs. }
  reflexivity.
Qed.

Lemma process_log_data_users (eng : Engine) (input_data output_data : string)
    (events : list EventRecord) (s : Session) :
  json_source s (log_data_path input_data) = Some (event_frame events) ->
  process_log_data eng input_data output_data s
  = process_log_data_tail eng output_data (plays_frame events)
      (after_users output_data eng events s).
Proof.
  intros Hsrc. unfold process_log_data.
  erewrite bind_ok; cycle 1.
  { unfold read_json. rewrite Hsrc. reflexivity. }
  erewrite bind_ok; cycle 1.
  { apply lift_ok. apply where_page. }
  erewrite bind_ok; cycle 1.
  { apply lift_ok. apply users_view_select. }
  erewrite bind_ok; cycle 1.
  { reflexivity. }
  erewrite bind_ok; cycle 1.
  { unfold users_query.
    erewrite bind_ok; cycle 1.
    { unfold from_view. cbn [views]. rewrite lookup_insert_eq. reflexivity. }
    apply lift_ok. apply users_sql_runs. }
  erewrite bind_ok; cycle 1.
  { reflexivity. }
  reflexivity.
Qed.

Lemma process_log_data_runs (eng : Engine) (input_data output_data : string)
    (recs : list SongRecord) (events : list EventRecord) (s : Session) :
  json_source s (log_data_path input_data) = Some (event_frame events) ->
  views s !! "songs" = Some (songs_table recs) ->
  timestamps_ok eng events = true ->
  process_log_data eng input_data output_data s
  = (Ok tt, after_log_data output_data eng recs events s).
Proof.
  intros Hsrc Hsongs Hts.
  rewrite (process_log_data_users _ _ _ _ _ Hsrc).
  unfold plays_frame.
  rewrite (process_log_data_tail_runs eng output_data recs events) by
    (try assumption; unfold after_users; cbn [views];
     rewrite lookup_insert_ne by discriminate; assumption).
  reflexivity.
Qed.

Lemma main_runs (eng : Engine) (input_bucket output_bucket : string)
    (recs : list SongRecord) (events : list EventRecord) (s : Session) :
  Reads s (bucket_str_format input_bucket) recs events ->
  timestamps_ok eng events = true ->
  main eng input_bucket output_bucket s
  = (Ok tt, after_main eng output_bucket recs events s).
Proof.
  intros [Hsongs Hlog] Hts. unfold main.
  erewrite bind_ok by (apply process_song_data_runs; exact Hsongs).
  apply process_log_data_runs.
  - exact Hlog.
  - unfold after_song_data. cbn [views]. apply lookup_insert_eq.
  - exact Hts.
Qed.

(** ** Paths *)

Lemma append_inj (a b c : string) : a ++ b = a ++ c -> b = c.
Proof.
  induction a as [|x a IH]; simpl; [trivial|].
  intros [= H]. exact (IH H).
Qed.

Ltac other_path := let H := fresh in intros H; apply append_inj in H; discriminate H.


Section Written.
Context (eng : Engine) (output_bucket : string)
        (recs : list SongRecord) (events : list EventRecord) (s : Session).

Let out := bucket_str_format output_bucket.
Let s' := after_main eng output_bucket recs events s.





Lemma after_main_songplays :
  written_table s' (out ++ "songplays") = Some (songplays_table eng recs events).
Proof.
  unfold written_table, s', after_main, after_log_data, after_song_data. cbn [written].
  rewrite lookup_insert_eq. reflexivity.
Qed.
End Written.

(** ** The song tables *)







(** ** The path patterns *)

Lemma below_append (root rest : string) : below root (root ++ rest) = rest.
Proof.
  induction root as [|c root IH]; simpl; [destruct rest; reflexivity|exact IH].
Qed.

(** C6, as the code has it.  Below the input root, the pattern of the song
    files has three wildcard directory levels and the pattern of the log
    files has two. *)
Theorem wildcard_depths (input_data : string) :
  wildcard_dirs (below input_data (song_data_path input_data)) = 3%nat /\
  wildcard_dirs (below input_data (log_data_path input_data)) = 2%nat /\
  below input_data (song_data_path input_data) = "/song_data/*/*/*/*.json" /\
  below input_data (log_data_path input_data) = "log_data/*/*/*.json".
Proof.
  unfold song_data_path, log_data_path. rewrite !below_append.
  repeat split; reflexivity.
Qed.

(** C6 as stated fails for the root [s3a://in/] that [main] builds for a
    bucket called in: the two patterns do not have the same depth, and the
    log pattern is not [log_data/*/*/*/*.json]. *)
Lemma log_pattern_is_one_level_shorter :
  wildcard_dirs (below "s3a://in/" (log_data_path (bucket_str_format "in")))
  <> wildcard_dirs (below "s3a://in/" (song_data_path (bucket_str_format "in"))) /\
  wildcard_dirs (below "s3a://in/" (log_data_path (bucket_str_format "in"))) <> 3%nat /\
  log_data_path (bucket_str_format "in") <> "s3a://in/log_data/*/*/*/*.json".
Proof. repeat split; discriminate. Qed.

(** ** What a computation leaves in place *)








(** ** Window ordering *)

#[global] Instance key_le_total : Total key_le.
Proof. intros [x|] [y|]; simpl; try tauto. lia. Qed.

#[global] Instance key_le_trans : Transitive key_le.
Proof. intros [x|] [y|] [z|]; simpl; try tauto; lia. Qed.

#[global] Instance desc_by_total (i : nat) : Total (desc_by i).
Proof. intros r1 r2. unfold desc_by. apply (total key_le). Qed.

#[global] Instance desc_by_trans (i : nat) : Transitive (desc_by i).
Proof.
  intros r1 r2 r3 H12 H23. unfold desc_by in *.
  exact (transitivity H23 H12).
Qed.










(** ** The users table *)










(** ** The songplays table *)

Lemma arrange_nil (eng : Engine) : arrange eng [] = [].
Proof. apply Permutation_nil_r. apply arrange_perm. Qed.

Lemma arrange_singleton (eng : Engine) (r : Row) : arrange eng [r] = [r].
Proof. apply Permutation_singleton_r. apply arrange_perm. Qed.

Lemma filter_all {A : Type} (P : A -> Prop) `{forall x, Decision (P x)} (l : list A) :
  (forall x, P x) -> filter P l = l.
Proof.
  intros HP. induction l as [|x l IH]; [reflexivity|].
  rewrite filter_cons_True by apply HP. rewrite IH. reflexivity.
Qed.

Lemma remove_dups_const {A B : Type} `{EqDecision B} (b : B) (l : list A) :
  l <> [] -> remove_dups (map (fun _ => b) l) = [b].
Proof.
  induction l as [|x l IH]; [contradiction|]. intros _.
  destruct l as [|y l]; [reflexivity|].
  cbn [map remove_dups] in *.
  destruct (decide_rel elem_of b (b :: map (fun _ => b) l)) as [_|Hn].
  - apply IH. discriminate.
  - exfalso. apply Hn. left.
Qed.

(** A window without [PARTITION BY] has one group, all the rows. *)
Lemma window_over_all (eng : Engine) (i : nat) (rs : list Row) :
  concat (map (fun g => number_rows (merge_sort (desc_by i) (arrange eng g)))
              (partitions (pick []) rs))
  = number_rows (merge_sort (desc_by i) (arrange eng rs)).
Proof.
  destruct rs as [|r rs].
  - rewrite arrange_nil. reflexivity.
  - unfold partitions.
    change (map (pick []) (r :: rs)) with (map (fun _ : Row => @nil value) (r :: rs)).
    rewrite remove_dups_const by discriminate.
    cbn [map concat]. rewrite app_nil_r.
    rewrite filter_all by reflexivity. reflexivity.
Qed.

Lemma songplays_rows (eng : Engine) (recs : list SongRecord) (events : list EventRecord) :
  rows (songplays_table eng recs events)
  = map (pick [0; 1; 4; 5; 13; 15; 6; 7; 8; 10; 9]%nat)
      (number_rows
         (merge_sort (desc_by 0)
            (arrange eng (joined_rows (rows (songs_table recs))
                                      (map (stage_row eng) (plays events)))))).
Proof. unfold songplays_table. cbn [rows]. rewrite window_over_all. reflexivity. Qed.














(** ** The end-to-end scenario *)

Lemma scenario_start (eng : Engine) :
  get_timestamp eng (VLong 1000000000000)
  = Ok (VTimestamp (mktime eng (1000000000 + utcoffset eng 1000000000) * 1000000)).
Proof.
  unfold get_timestamp, Py.fromtimestamp.
  assert (F : Float64.is_finite (Py.truediv_1000 1000000000000) = true)
    by (vm_compute; reflexivity).
  assert (T : Py.to_timeval (Py.truediv_1000 1000000000000) = (1000000000, 0))
    by (vm_compute; reflexivity).
  rewrite F, T.
  pose proof (utcoffset_range eng 1000000000) as Hoff.
  unfold Py.min_wall, Py.max_wall.
  destruct (Z.leb_spec (-62135596800) (1000000000 + utcoffset eng 1000000000)); [|lia].
  destruct (Z.leb_spec (1000000000 + utcoffset eng 1000000000) 253402300799); [|lia].
  cbn [andb rbind]. unfold Ts.toInternal. cbn [wall microsecond].
  rewrite Z.add_0_r. reflexivity.
Qed.

(** C1.  On the one song record and the one event record of the scenario,
    the song transform followed by the log transform leaves a songplays
    table of exactly one row, with song_id S1, artist_id A1 and user_id U1. *)
Theorem scenario_songplay (eng : Engine) (input_bucket output_bucket : string)
    (s : Session) :
  Reads s (bucket_str_format input_bucket) [scenario_song] [scenario_event] ->
  exists s' fact f,
    main eng input_bucket output_bucket s = (Ok tt, s') /\
    written_table s' (bucket_str_format output_bucket ++ "songplays") = Some fact /\
    rows fact = [f] /\
    field fact "song_id" f = VString "S1" /\
    field fact "artist_id" f = VString "A1" /\
    field fact "user_id" f = VString "U1".
Proof.
  intros Hreads.
  assert (Hts : timestamps_ok eng [scenario_event] = true).
  { unfold timestamps_ok.
    change (plays [scenario_event]) with [scenario_event].
    cbn [forallb].
    change (olong (e_ts scenario_event)) with (VLong 1000000000000).
    rewrite scenario_start. reflexivity. }
  exists (after_main eng output_bucket [scenario_song] [scenario_event] s),
         (songplays_table eng [scenario_song] [scenario_event]).
  eexists. split; [apply main_runs; assumption|].
  split; [apply after_main_songplays|].
  split.
  - rewrite songplays_rows.
    change (joined_rows (rows (songs_table [scenario_song]))
              (map (stage_row eng) (plays [scenario_event])))
      with [(stage_row eng scenario_event ++ songs_row scenario_song)%list].
    rewrite arrange_singleton. reflexivity.
  - repeat split; reflexivity.
Qed.

Lemma scenario_songplay_witness :
  Reads (session_of "s3a://in/" [scenario_song] [scenario_event])
    (bucket_str_format "in") [scenario_song] [scenario_event] /\
  (exists s' fact f,
    main utc_engine "in" "out"
      (session_of "s3a://in/" [scenario_song] [scenario_event]) = (Ok tt, s') /\
    written_table s' (bucket_str_format "out" ++ "songplays") = Some fact /\
    rows fact = [f] /\
    field fact "song_id" f = VString "S1" /\
    field fact "artist_id" f = VString "A1" /\
    field fact "user_id" f = VString "U1").
Proof.
  assert (H1 : Reads (session_of "s3a://in/" [scenario_song] [scenario_event])
    (bucket_str_format "in") [scenario_song] [scenario_event]) by (split; reflexivity).
  repeat (split; [assumption|]).
  apply (scenario_songplay utc_engine "in" "out"); assumption.
Defined.

(** ** Where a songplays row comes from *)







(** ** Events without a user *)





(** ** Events of other pages *)

Lemma source_blind_bind {A B : Type} (m : M A) (k : A -> M B) :
  source_blind m -> (forall a, source_blind (k a)) -> source_blind (bind m k).
Proof.
  intros Hm Hk s1 s2 H. destruct (Hm s1 s2 H) as [Hr Hs]. unfold bind.
  destruct (m s1) as [[a1|e1] s1'], (m s2) as [[a2|e2] s2'];
    cbn [fst snd] in *; try discriminate.
  - injection Hr as ->. apply Hk. exact Hs.
  - injection Hr as ->. split; [reflexivity|exact Hs].
Qed.

Lemma source_blind_lift {A : Type} (r : result A) : source_blind (lift r).
Proof. intros s1 s2 H. split; [reflexivity|exact H]. Qed.

Lemma source_blind_from_view (name : string) : source_blind (from_view name).
Proof.
  intros s1 s2 [Hv Hw]. unfold from_view. rewrite Hv.
  destruct (views s2 !! name); (split; [reflexivity|split; assumption]).
Qed.

Lemma source_blind_view (name : string) (df : DataFrame) :
  source_blind (createOrReplaceTempView name df).
Proof.
  intros s1 s2 [Hv Hw]. unfold createOrReplaceTempView, same_tables.
  cbn [fst snd views written]. rewrite Hv, Hw. auto.
Qed.

Lemma source_blind_write (path : string) (cols : list string) (df : DataFrame) :
  source_blind (write_parquet path cols df).
Proof.
  intros s1 s2 [Hv Hw]. unfold write_parquet, same_tables.
  destruct (mapR (resolve df) cols); cbn [fst snd views written];
    rewrite ?Hv, ?Hw; auto.
Qed.

Lemma source_blind_tail (eng : Engine) (output_data : string) (df : DataFrame) :
  source_blind (process_log_data_tail eng output_data df).
Proof.
  unfold process_log_data_tail, songplays_query.
  repeat first
    [ apply source_blind_bind; [|intros ?]
    | apply source_blind_lift
    | apply source_blind_from_view
    | apply source_blind_view
    | apply source_blind_write ].
Qed.





(** ** Binary64 arithmetic of the timestamp *)

Lemma digits2_size (p : positive) : digits2_pos p = Pos.size p.
Proof. induction p; simpl; congruence. Qed.

Lemma Zdigits2_log2 (m : Z) : 0 < m -> Zdigits2 m = Z.log2 m + 1.
Proof.
  destruct m as [|p|p]; try lia. intros _. simpl.
  destruct p; simpl; rewrite ?digits2_size; lia.
Qed.

Lemma Zdigits2_bounds (m : Z) :
  0 < m -> 2 ^ (Zdigits2 m - 1) <= m < 2 ^ Zdigits2 m.
Proof.
  intros H. rewrite Zdigits2_log2 by exact H.
  replace (Z.log2 m + 1 - 1) with (Z.log2 m) by lia.
  pose proof (Z.log2_spec m H). unfold Z.succ in *. lia.
Qed.

Lemma Zdigits2_unique (m d : Z) :
  0 < d -> 2 ^ (d - 1) <= m < 2 ^ d -> Zdigits2 m = d.
Proof.
  intros Hd H. assert (0 < m) by (pose proof (Z.pow_pos_nonneg 2 (d - 1)); lia).
  rewrite Zdigits2_log2 by assumption.
  rewrite (Z.log2_unique m (d - 1)); [lia|lia|].
  unfold Z.succ. replace (d - 1 + 1) with d by lia. exact H.
Qed.

Lemma iter_pos_nat {A : Type} (f : A -> A) (p : positive) (x : A) :
  SpecFloat.iter_pos f p x = Nat.iter (Pos.to_nat p) f x.
Proof.
  revert x. induction p as [p IH|p IH|]; intros x; cbn [SpecFloat.iter_pos].
  - rewrite !IH. rewrite Pos2Nat.inj_xI.
    replace (S (2 * Pos.to_nat p))%nat with (Pos.to_nat p + (Pos.to_nat p + 1))%nat by lia.
    rewrite !Nat.iter_add. reflexivity.
  - rewrite !IH. rewrite Pos2Nat.inj_xO.
    replace (2 * Pos.to_nat p)%nat with (Pos.to_nat p + Pos.to_nat p)%nat by lia.
    rewrite Nat.iter_add. reflexivity.
  - reflexivity.
Qed.

Lemma shr_1_nonneg (m : Z) (r s : bool) :
  0 <= m ->
  shr_1 {| shr_m := m; shr_r := r; shr_s := s |}
  = {| shr_m := m / 2; shr_r := Z.odd m; shr_s := r || s |}.
Proof.
  intros Hm. destruct m as [|p|p]; try lia.
  - reflexivity.
  - destruct p as [p|p|]; cbn [shr_1].
    + replace (Z.pos p~1 / 2) with (Z.pos p)
        by (apply (Z.div_unique _ _ _ 1); lia).
      reflexivity.
    + replace (Z.pos p~0 / 2) with (Z.pos p)
        by (apply (Z.div_unique _ _ _ 0); lia).
      reflexivity.
    + reflexivity.
Qed.

Lemma located_step (N D : Z) (k : nat) (mrs : shr_record) :
  0 < D -> 0 <= N -> located N D k mrs -> located N D (S k) (shr_1 mrs).
Proof.
  intros HD HN [Hm Hp]. destruct mrs as [m r s]. cbn [shr_m shr_r shr_s] in *.
  set (b := D * 2 ^ Z.of_nat k) in *.
  assert (Hb : 0 < b) by (unfold b; pose proof (Z.pow_pos_nonneg 2 (Z.of_nat k)); nia).
  assert (Hb' : D * 2 ^ Z.of_nat (S k) = b * 2).
  { unfold b. rewrite Nat2Z.inj_succ, Z.pow_succ_r by lia. ring. }
  assert (Hm0 : 0 <= m) by (subst m; apply Z.div_pos; lia).
  rewrite shr_1_nonneg by exact Hm0.
  unfold located. cbn [shr_m shr_r shr_s]. rewrite Hb'.
  assert (Hdiv : N / (b * 2) = m / 2) by (subst m; rewrite Z.div_div by lia; reflexivity).
  assert (Hmod : N mod (b * 2) = N mod b + b * (m mod 2))
    by (subst m; apply Z.rem_mul_r; lia).
  rewrite Hdiv, Hmod. split; [reflexivity|].
  rewrite Zmod_odd. destruct Hp as [Hrange Hcode].
  unfold placed. destruct (Z.odd m), r, s; cbn [orb]; lia.
Qed.

Lemma located_iter (N D : Z) (n : nat) (mrs : shr_record) :
  0 < D -> 0 <= N -> located N D 0 mrs -> located N D n (Nat.iter n shr_1 mrs).
Proof.
  intros HD HN H. induction n as [|n IH]; [exact H|].
  cbn [Nat.iter]. apply located_step; assumption.
Qed.

Lemma round_located (N D : Z) (k : nat) (mrs : shr_record) :
  located N D k mrs ->
  round_nearest_even (shr_m mrs) (loc_of_shr_record mrs) = rne N (D * 2 ^ Z.of_nat k).
Proof.
  intros [Hm [Hrange Hcode]]. destruct mrs as [m r s]. cbn [shr_m shr_r shr_s] in *.
  unfold rne. rewrite <- Hm.
  destruct r, s; cbn [loc_of_shr_record round_nearest_even].
  - replace (_ ?= _) with Gt by (symmetry; apply Z.compare_gt_iff; lia). reflexivity.
  - replace (_ ?= _) with Eq by (symmetry; apply Z.compare_eq_iff; lia). reflexivity.
  - replace (_ ?= _) with Lt by (symmetry; apply Z.compare_lt_iff; lia). reflexivity.
  - replace (_ ?= _) with Lt by (symmetry; apply Z.compare_lt_iff; lia). reflexivity.
Qed.

Lemma rne_near (a b : Z) :
  0 < b -> 2 * Z.abs (b * rne a b - a) <= b.
Proof.
  intros Hb. unfold rne.
  pose proof (Z.div_mod a b ltac:(lia)) as E.
  pose proof (Z.mod_pos_bound a b Hb) as R.
  destruct (Z.compare_spec (2 * (a mod b)) b); [destruct (Z.even (a / b))| |]; lia.
Qed.

Lemma rne_unique (a b c : Z) :
  0 < b -> 2 * Z.abs (a - c * b) < b -> rne a b = c.
Proof.
  intros Hb H. unfold rne.
  pose proof (Z.div_mod a b ltac:(lia)) as E.
  pose proof (Z.mod_pos_bound a b Hb) as R.
  destruct (Z.compare_spec (2 * (a mod b)) b); [destruct (Z.even (a / b))| |]; nia.
Qed.

Lemma rne_exact (c b : Z) : 0 < b -> rne (c * b) b = c.
Proof. intros Hb. apply rne_unique; [exact Hb|]. replace (c * b - c * b) with 0 by ring. simpl. lia. Qed.

Lemma rne_scale (a b c : Z) : 0 < b -> 0 < c -> rne (a * c) (b * c) = rne a b.
Proof.
  intros Hb Hc. unfold rne.
  rewrite Z.div_mul_cancel_r by lia.
  rewrite Z.mul_mod_distr_r by lia.
  replace (2 * (a mod b * c) ?= b * c) with (2 * (a mod b) ?= b); [reflexivity|].
  destruct (Z.compare_spec (2 * (a mod b)) b); symmetry;
    [apply Z.compare_eq_iff|apply Z.compare_lt_iff|apply Z.compare_gt_iff]; nia.
Qed.

Lemma rne_shift (a b t : Z) :
  0 < b -> Z.even t = true -> rne (a + t * b) b = t + rne a b.
Proof.
  intros Hb Ht. unfold rne.
  rewrite Z.div_add, Z.mod_add by lia.
  rewrite Z.even_add, Ht.
  destruct (2 * (a mod b) ?= b); [destruct (Z.even (a / b)); cbn|..]; lia.
Qed.

Lemma rne_bounds (a b : Z) : 0 < b -> a / b <= rne a b <= a / b + 1.
Proof.
  intros Hb. unfold rne.
  destruct (2 * (a mod b) ?= b); [destruct (Z.even (a / b))|..]; lia.
Qed.

Lemma fexp_normal (e : Z) : -1074 <= e - 53 -> fexp 53 1024 e = e - 53.
Proof. intros H. unfold fexp, emin. lia. Qed.

Lemma shr_located (N D : Z) (mrs : shr_record) (e n : Z) :
  0 < D -> 0 <= N -> 0 <= n -> located N D 0 mrs ->
  exists mrs', shr mrs e n = (mrs', e + n) /\ located N D (Z.to_nat n) mrs'.
Proof.
  intros HD HN Hn H. destruct n as [|p|p]; try lia.
  - exists mrs. cbn [shr]. rewrite Z.add_0_r. auto.
  - exists (SpecFloat.iter_pos shr_1 p mrs). cbn [shr]. split; [reflexivity|].
    rewrite iter_pos_nat. apply located_iter; assumption.
Qed.

Lemma binary_round_aux_spec (sx : bool) (mx ex : Z) (lx : location) (N D : Z) :
  0 < D -> 0 <= N ->
  located N D 0 (shr_record_of_loc mx lx) ->
  53 <= Zdigits2 mx ->
  -1074 <= ex + Zdigits2 mx - 53 ->
  ex + Zdigits2 mx - 53 < 971 ->
  forall n m1, n = Zdigits2 mx - 53 -> m1 = rne N (D * 2 ^ n) ->
  2 ^ 52 <= m1 <= 2 ^ 53 /\
  binary_round_aux 53 1024 sx mx ex lx
  = if m1 <? 2 ^ 53 then S754_finite sx (Z.to_pos m1) (ex + n)
    else S754_finite sx (Z.to_pos (2 ^ 52)) (ex + n + 1).
Proof.
  intros HD HN Hloc Hdig Hlo Hhi n m1 Hndef Hm1def.
  assert (Hmx : mx = N / D).
  { destruct Hloc as [Hm _]. destruct lx as [|[]]; cbn in Hm;
      rewrite Z.mul_1_r in Hm; exact Hm. }
  assert (Hmx0 : 0 < mx).
  { assert (0 <= mx) by (rewrite Hmx; apply Z.div_pos; lia).
    destruct mx; cbn in Hdig; lia. }
  pose proof (Zdigits2_bounds mx Hmx0) as Hb.
  assert (Hn : 0 <= n) by lia.
  assert (Hpn : 0 < 2 ^ n) by (apply Z.pow_pos_nonneg; lia).
  assert (Hq : 2 ^ 52 <= N / (D * 2 ^ n) < 2 ^ 53).
  { rewrite <- Z.div_div by lia. rewrite <- Hmx.
    replace (Zdigits2 mx - 1) with (52 + n) in Hb by lia.
    replace (Zdigits2 mx) with (53 + n) in Hb by lia.
    rewrite !Z.pow_add_r in Hb by lia.
    split.
    - apply Z.div_le_lower_bound; [exact Hpn|]. clear -Hb. lia.
    - apply Z.div_lt_upper_bound; [exact Hpn|]. clear -Hb. lia. }
  assert (Hm1 : 2 ^ 52 <= m1 <= 2 ^ 53).
  { pose proof (rne_bounds N (D * 2 ^ n) ltac:(nia)). lia. }
  split; [exact Hm1|].
  unfold binary_round_aux, shr_fexp.
  rewrite fexp_normal by lia.
  replace (Zdigits2 mx + ex - 53 - ex) with n by lia.
  destruct (shr_located N D (shr_record_of_loc mx lx) ex n HD HN Hn Hloc)
    as (mrs' & -> & Hloc').
  rewrite (round_located N D _ mrs' Hloc').
  rewrite Z2Nat.id by exact Hn. rewrite <- Hm1def.
  destruct (Z.ltb_spec m1 (2 ^ 53)) as [Hlt|Hge].
  - assert (Hd1 : Zdigits2 m1 = 53) by (apply Zdigits2_unique; lia).
    rewrite Hd1. rewrite fexp_normal by lia.
    replace (53 + (ex + n) - 53 - (ex + n)) with 0 by lia.
    cbn [shr shr_record_of_loc shr_m].
    destruct m1 as [|p|p] eqn:E; try lia.
    replace (ex + n <=? 1024 - 53) with true by (symmetry; apply Z.leb_le; lia).
    reflexivity.
  - assert (E : m1 = 2 ^ 53) by lia. rewrite E.
    change (Zdigits2 (2 ^ 53)) with 54.
    rewrite fexp_normal by lia.
    replace (54 + (ex + n) - 53 - (ex + n)) with 1 by lia.
    cbn [shr shr_record_of_loc SpecFloat.iter_pos].
    change (shr_1 {| shr_m := 2 ^ 53; shr_r := false; shr_s := false |})
      with {| shr_m := 2 ^ 52; shr_r := false; shr_s := false |}.
    cbn [shr_m]. change (2 ^ 52) with (Z.pos (Z.to_pos (2 ^ 52))) at 1.
    cbv iota beta.
    replace (ex + n + 1 <=? 1024 - 53) with true by (symmetry; apply Z.leb_le; lia).
    reflexivity.
Qed.

Lemma located_exact (m : Z) : located m 1 0 (shr_record_of_loc m loc_Exact).
Proof.
  unfold located, placed. cbn [shr_record_of_loc shr_m shr_r shr_s Z.of_nat].
  change (1 * 2 ^ 0) with 1. rewrite Z.div_1_r, Z.mod_1_r. lia.
Qed.

Lemma binary_round_aux_exact (sx : bool) (m e : Z) :
  2 ^ 52 <= m < 2 ^ 53 -> -1074 <= e < 971 ->
  binary_round_aux 53 1024 sx m e loc_Exact = S754_finite sx (Z.to_pos m) e.
Proof.
  intros Hm He.
  assert (Hd : Zdigits2 m = 53) by (apply Zdigits2_unique; lia).
  destruct (binary_round_aux_spec sx m e loc_Exact m 1) with (n := 0) (m1 := m)
    as [_ ->]; rewrite ?Hd; try lia.
  - apply located_exact.
  - change (1 * 2 ^ 0) with 1. symmetry. replace m with (m * 1) at 1 by lia.
    apply rne_exact. lia.
  - replace (m <? 2 ^ 53) with true by (symmetry; apply Z.ltb_lt; lia).
    rewrite Z.add_0_r. reflexivity.
Qed.

Lemma pos_iter_xO (p k : positive) :
  Z.pos (Pos.iter xO p k) = Z.pos p * 2 ^ Z.pos k.
Proof.
  induction k as [|k IH] using Pos.peano_ind.
  - cbn [Pos.iter]. rewrite Pos2Z.inj_xO. change (2 ^ 1) with 2. lia.
  - rewrite Pos.iter_succ, Pos2Z.inj_xO, IH, Pos2Z.inj_succ, Z.pow_succ_r by lia.
    ring.
Qed.

Lemma normalize_exact (v e : Z) :
  0 < v < 2 ^ 53 ->
  -1074 <= e + Zdigits2 v - 53 < 971 ->
  binary_normalize 53 1024 v e false
  = S754_finite false (Z.to_pos (v * 2 ^ (53 - Zdigits2 v))) (e + Zdigits2 v - 53).
Proof.
  intros Hv He. destruct v as [|p|p]; try lia.
  pose proof (Zdigits2_bounds (Z.pos p) ltac:(lia)) as Hb.
  assert (Hd : 0 < Zdigits2 (Z.pos p) <= 53).
  { split; [cbn; lia|].
    destruct (Z.le_gt_cases (Zdigits2 (Z.pos p)) 53) as [H|H]; [exact H|].
    assert (2 ^ 53 <= 2 ^ (Zdigits2 (Z.pos p) - 1)) by (apply Z.pow_le_mono_r; lia).
    lia. }
  cbn [binary_normalize]. unfold binary_round.
  change (Z.pos (digits2_pos p)) with (Zdigits2 (Z.pos p)).
  rewrite fexp_normal by lia. unfold shl_align.
  set (d := Zdigits2 (Z.pos p)) in *.
  replace (d + e - 53 - e) with (d - 53) by lia.
  destruct (d - 53) as [|k|k] eqn:Ek; try lia.
  - replace (53 - d) with 0 by lia. rewrite Z.mul_1_r.
    replace (e + d - 53) with e by lia.
    rewrite binary_round_aux_exact; [reflexivity| |lia].
    replace (d - 1) with 52 in Hb by lia. replace d with 53 in Hb by lia. exact Hb.
  - assert (Hk : Z.pos k = 53 - d) by lia.
    assert (Hp : Z.pos (Pos.iter xO p k) = Z.pos p * 2 ^ (53 - d))
      by (rewrite pos_iter_xO, Hk; reflexivity).
    rewrite binary_round_aux_exact.
    + rewrite Hp. replace (d + e - 53) with (e + d - 53) by lia. reflexivity.
    + rewrite Hp.
      assert (E1 : 2 ^ 52 = 2 ^ (d - 1) * 2 ^ (53 - d))
        by (rewrite <- Z.pow_add_r by lia; f_equal; lia).
      assert (E2 : 2 ^ 53 = 2 ^ d * 2 ^ (53 - d))
        by (rewrite <- Z.pow_add_r by lia; f_equal; lia).
      assert (0 < 2 ^ (53 - d)) by (apply Z.pow_pos_nonneg; lia).
      rewrite E1, E2. clear -Hb H. nia.
    + lia.
Qed.

Lemma new_location_located (N D : Z) :
  0 < D -> 0 <= N ->
  located N D 0 (shr_record_of_loc (N / D) (new_location D (N mod D))).
Proof.
  intros HD HN. pose proof (Z.mod_pos_bound N D HD) as Hr.
  unfold located. cbn [Z.of_nat]. change (2 ^ 0) with 1. rewrite Z.mul_1_r.
  set (r := N mod D) in *.
  assert (Hm : forall l, shr_m (shr_record_of_loc (N / D) l) = N / D)
    by (intros [|[]]; reflexivity).
  split; [apply Hm|]. unfold placed. split; [exact Hr|].
  unfold new_location, new_location_even, new_location_odd.
  destruct (Z.even D) eqn:Ev.
  - destruct (Z.eqb_spec r 0) as [->|Hne]; [reflexivity|].
    destruct (Z.compare_spec (2 * r) D); cbn [shr_record_of_loc shr_r shr_s]; lia.
  - destruct (Z.eqb_spec r 0) as [->|Hne]; [reflexivity|].
    assert (Hodd : D mod 2 = 1).
    { rewrite Zmod_even, Ev. reflexivity. }
    pose proof (Z.div_mod D 2 ltac:(lia)) as HD2.
    destruct (Z.compare_spec (2 * r + 1) D); cbn [shr_record_of_loc shr_r shr_s]; lia.
Qed.

Lemma div_finite (m1 m2 : positive) (e1 e2 : Z) :
  2 ^ 52 <= Z.pos m1 < 2 ^ 53 ->
  2 ^ 52 <= Z.pos m2 < 2 ^ 53 ->
  -1074 <= e1 - e2 - 53 ->
  SFdiv 53 1024 (S754_finite false m1 e1) (S754_finite false m2 e2)
  = binary_round_aux 53 1024 false (Z.pos m1 * 2 ^ 53 / Z.pos m2) (e1 - e2 - 53)
      (new_location (Z.pos m2) ((Z.pos m1 * 2 ^ 53) mod Z.pos m2)).
Proof.
  intros H1 H2 He.
  assert (Hd1 : Zdigits2 (Z.pos m1) = 53) by (apply Zdigits2_unique; lia).
  assert (Hd2 : Zdigits2 (Z.pos m2) = 53) by (apply Zdigits2_unique; lia).
  cbn [SFdiv xorb]. unfold SFdiv_core_binary. rewrite Hd1, Hd2.
  replace (53 + e1 - (53 + e2)) with (e1 - e2) by lia.
  rewrite fexp_normal by lia.
  rewrite Z.min_l by lia.
  replace (e1 - e2 - (e1 - e2 - 53)) with 53 by lia.
  cbv iota beta. rewrite Z.shiftl_mul_pow2 by lia.
  unfold Z.div, Z.modulo.
  destruct (Z.div_eucl (Z.pos m1 * 2 ^ 53) (Z.pos m2)) as [q r]. reflexivity.
Qed.

Lemma digits_53_54 (q : Z) : 2 ^ 52 <= q < 2 ^ 54 -> 53 <= Zdigits2 q <= 54.
Proof.
  intros Hq. pose proof (Zdigits2_bounds q ltac:(lia)) as Hb.
  split.
  - destruct (Z.le_gt_cases 53 (Zdigits2 q)) as [H|H]; [exact H|].
    assert (2 ^ Zdigits2 q <= 2 ^ 52) by (apply Z.pow_le_mono_r; lia). lia.
  - destruct (Z.le_gt_cases (Zdigits2 q) 54) as [H|H]; [exact H|].
    assert (2 ^ 54 <= 2 ^ (Zdigits2 q - 1)) by (apply Z.pow_le_mono_r; lia). lia.
Qed.

Lemma div_lt_inv (a b c : Z) : 0 < b -> a / b < c -> a < c * b.
Proof.
  intros Hb H. pose proof (Z.div_mod a b ltac:(lia)).
  pose proof (Z.mod_pos_bound a b Hb). nia.
Qed.

Lemma truediv_1000_spec (x : Z) :
  0 < x < 2 ^ 42 ->
  exists K m, 20 <= K <= 62 /\
    Py.truediv_1000 x = S754_finite false (Z.to_pos m) (- K) /\
    m = rne (x * 2 ^ K) 1000 /\ 2 ^ 52 <= m < 2 ^ 53.
Proof.
  intros Hx.
  pose proof (Zdigits2_bounds x ltac:(lia)) as Hb.
  set (d := Zdigits2 x) in *.
  assert (Hd : 1 <= d <= 42).
  { split.
    - unfold d. rewrite Zdigits2_log2 by lia. pose proof (Z.log2_nonneg x). lia.
    - destruct (Z.le_gt_cases d 42) as [H|H]; [exact H|].
      assert (2 ^ 42 <= 2 ^ (d - 1)) by (apply Z.pow_le_mono_r; lia). lia. }
  unfold Py.truediv_1000, Float64.div, Float64.of_Z, Float64.prec, Float64.emax.
  rewrite (normalize_exact x 0) by (fold d; lia). fold d.
  change (binary_normalize 53 1024 1000 0 false)
    with (S754_finite false 8796093022208000 (-43)).
  set (M1 := x * 2 ^ (53 - d)).
  assert (HM1 : 2 ^ 52 <= M1 < 2 ^ 53).
  { unfold M1.
    assert (E1 : 2 ^ 52 = 2 ^ (d - 1) * 2 ^ (53 - d))
      by (rewrite <- Z.pow_add_r by lia; f_equal; lia).
    assert (E2 : 2 ^ 53 = 2 ^ d * 2 ^ (53 - d))
      by (rewrite <- Z.pow_add_r by lia; f_equal; lia).
    assert (0 < 2 ^ (53 - d)) by (apply Z.pow_pos_nonneg; lia).
    rewrite E1, E2. clear -Hb H. nia. }
  assert (HP : Z.pos (Z.to_pos M1) = M1) by (apply Z2Pos.id; lia).
  rewrite div_finite by (rewrite ?HP; lia). rewrite HP.
  set (N := M1 * 2 ^ 53). set (D := 8796093022208000).
  assert (HD : 0 < D) by reflexivity.
  assert (HN : 0 <= N) by (unfold N; lia).
  assert (Hq : 2 ^ 52 <= N / D < 2 ^ 54).
  { split.
    - apply Z.div_le_lower_bound; [exact HD|]. unfold N, D. lia.
    - apply Z.div_lt_upper_bound; [exact HD|]. unfold N, D. lia. }
  pose proof (digits_53_54 _ Hq) as Hdq.
  set (n := Zdigits2 (N / D) - 53).
  set (K := 63 - d - n).
  assert (Hn : 0 <= n <= 1) by (unfold n; lia).
  assert (HK : 20 <= K <= 62) by (unfold K; lia).
  assert (Hscale : rne N (D * 2 ^ n) = rne (x * 2 ^ K) 1000).
  { assert (EN : N = x * 2 ^ K * 2 ^ (43 + n)).
    { unfold N, M1. rewrite <- !Z.mul_assoc, <- !Z.pow_add_r by lia.
      do 2 f_equal. unfold K. lia. }
    assert (ED : D * 2 ^ n = 1000 * 2 ^ (43 + n)).
    { rewrite Z.pow_add_r by lia. unfold D. lia. }
    rewrite EN, ED. apply rne_scale; [lia|]. apply Z.pow_pos_nonneg; lia. }
  destruct (binary_round_aux_spec false (N / D) (0 + d - 53 - -43 - 53)
              (new_location D (N mod D)) N D HD HN
              (new_location_located N D HD HN) ltac:(lia) ltac:(lia) ltac:(lia)
              n (rne N (D * 2 ^ n)) eq_refl eq_refl) as [Hm1 Hres].
  rewrite Hres. rewrite Hscale in *.
  set (m := rne (x * 2 ^ K) 1000) in *.
  assert (Hfloor : x * 2 ^ K < 1000 * 2 ^ 53).
  { assert (Hf : N / (D * 2 ^ n) < 2 ^ 53).
    { rewrite <- Z.div_div by lia.
      apply Z.div_lt_upper_bound; [lia|].
      pose proof (Zdigits2_bounds (N / D) ltac:(lia)) as Hbq.
      replace (Zdigits2 (N / D)) with (n + 53) in Hbq by (unfold n; lia).
      rewrite Z.pow_add_r in Hbq by lia. lia. }
    assert (EN : N = x * 2 ^ K * 2 ^ (43 + n)).
    { unfold N, M1. rewrite <- !Z.mul_assoc, <- !Z.pow_add_r by lia.
      do 2 f_equal. unfold K. lia. }
    assert (ED : D * 2 ^ n = 1000 * 2 ^ (43 + n)).
    { rewrite Z.pow_add_r by lia. unfold D. lia. }
    rewrite EN, ED in Hf.
    rewrite Z.div_mul_cancel_r in Hf
      by (try lia; pose proof (Z.pow_pos_nonneg 2 (43 + n)); lia).
    apply div_lt_inv in Hf; lia. }
  assert (Hlt : m < 2 ^ 53).
  { pose proof (rne_near (x * 2 ^ K) 1000 ltac:(lia)) as Hnear. fold m in Hnear.
    assert (E20 : 2 ^ K = 2 ^ 20 * 2 ^ (K - 20))
      by (rewrite <- Z.pow_add_r by lia; f_equal; lia).
    assert (0 < 2 ^ (K - 20)) by (apply Z.pow_pos_nonneg; lia).
    rewrite E20 in Hfloor, Hnear.
    clear -Hm1 Hnear Hfloor H Hx. lia. }
  exists K, m. split; [exact HK|]. split; [|split; [reflexivity|lia]].
  replace (m <? 2 ^ 53) with true by (symmetry; apply Z.ltb_lt; exact Hlt).
  f_equal. unfold K. lia.
Qed.

Lemma final_round (K a n' M rho r : Z) :
  20 <= K -> 0 <= a -> 0 <= n' <= K + a - 32 ->
  0 <= r < 1000 ->
  2 * Z.abs (1000 * rho - r * 2 ^ K) <= 1000 ->
  2 * Z.abs (M * 2 ^ n' - 1000000 * rho * 2 ^ a) <= 2 ^ n' ->
  rne M (2 ^ (K + a - n')) = 1000 * r.
Proof.
  intros HK Ha Hn Hr Hrho HM.
  set (b := 2 ^ (K + a - n')).
  assert (Hb : 0 < b) by (apply Z.pow_pos_nonneg; lia).
  assert (HY : 0 < 2 ^ n') by (apply Z.pow_pos_nonneg; lia).
  assert (HA : 0 < 2 ^ a) by (apply Z.pow_pos_nonneg; lia).
  assert (HX : 2 ^ 20 <= 2 ^ K) by (apply Z.pow_le_mono_r; lia).
  assert (HbY : b * 2 ^ n' = 2 ^ K * 2 ^ a).
  { unfold b. rewrite <- !Z.pow_add_r by lia. f_equal. lia. }
  assert (HY32 : 2 ^ n' * 2 ^ 32 <= 2 ^ K * 2 ^ a).
  { rewrite <- !Z.pow_add_r by lia. apply Z.pow_le_mono_r; lia. }
  apply rne_unique; [exact Hb|].
  set (X := 2 ^ K) in *. set (A := 2 ^ a) in *. set (Y := 2 ^ n') in *.
  clearbody X A Y b. clear HK Ha Hn.
  assert (H1 : 2 * Z.abs (M * Y - 1000 * r * (b * Y)) <= Y + 1000000 * A).
  { rewrite HbY.
    assert (E : M * Y - 1000 * r * (X * A)
                = (M * Y - 1000000 * rho * A) + 1000 * A * (1000 * rho - r * X)) by ring.
    rewrite E.
    pose proof (Z.abs_triangle (M * Y - 1000000 * rho * A)
                  (1000 * A * (1000 * rho - r * X))) as T.
    rewrite (Z.abs_mul (1000 * A)) in T.
    rewrite (Z.abs_eq (1000 * A)) in T by lia.
    nia. }
  assert (H2 : Y + 1000000 * A < b * Y) by (rewrite HbY; nia).
  assert (H3 : 2 * Z.abs (M * Y - 1000 * r * (b * Y)) < b * Y) by lia.
  replace (M * Y - 1000 * r * (b * Y)) with ((M - 1000 * r * b) * Y) in H3 by ring.
  rewrite Z.abs_mul, (Z.abs_eq Y) in H3 by lia.
  nia.
Qed.

Lemma round_half_even_rne (M E : Z) :
  0 < M -> E < 0 ->
  Float64.round_half_even (S754_finite false (Z.to_pos M) E) = rne M (2 ^ (- E)).
Proof.
  intros HM HE. unfold Float64.round_half_even.
  replace (0 <=? E) with false by (symmetry; apply Z.leb_gt; exact HE).
  rewrite Z2Pos.id by exact HM. cbn [cond_Zopp].
  rewrite Z.shiftr_div_pow2 by lia. unfold rne.
  set (k := - E) in *.
  assert (Hk : 2 ^ k = 2 * 2 ^ (k - 1)).
  { rewrite <- Z.pow_succ_r by lia. f_equal. lia. }
  assert (0 < 2 ^ (k - 1)) by (apply Z.pow_pos_nonneg; lia).
  pose proof (Z.mod_pos_bound M (2 ^ k) ltac:(lia)) as Hr.
  set (q := M / 2 ^ k) in *. set (r := M mod 2 ^ k) in *.
  destruct (Z.compare_spec (2 * r) (2 ^ k)) as [Heq|Hlt|Hgt].
  - replace (r <? 2 ^ (k - 1)) with false by (symmetry; apply Z.ltb_ge; lia).
    replace (2 ^ (k - 1) <? r) with false by (symmetry; apply Z.ltb_ge; lia).
    reflexivity.
  - replace (r <? 2 ^ (k - 1)) with true by (symmetry; apply Z.ltb_lt; lia).
    reflexivity.
  - replace (r <? 2 ^ (k - 1)) with false by (symmetry; apply Z.ltb_ge; lia).
    replace (2 ^ (k - 1) <? r) with true by (symmetry; apply Z.ltb_lt; lia).
    reflexivity.
Qed.

Lemma to_timeval_spec (x : Z) :
  0 < x < 2 ^ 42 ->
  Py.to_timeval (Py.truediv_1000 x) = (x / 1000, x mod 1000 * 1000).
Proof.
  intros Hx.
  destruct (truediv_1000_spec x Hx) as (K & m & HK & -> & Hm & Hmb).
  pose proof (Z.div_mod x 1000 ltac:(lia)) as Hxr.
  pose proof (Z.mod_pos_bound x 1000 ltac:(lia)) as Hr.
  assert (Hs : 0 <= x / 1000) by (apply Z.div_pos; lia).
  set (s := x / 1000) in *. set (r := x mod 1000) in *.
  set (rho := rne (r * 2 ^ K) 1000).
  assert (HpK : 2 ^ 20 <= 2 ^ K) by (apply Z.pow_le_mono_r; lia).
  assert (Hm' : m = s * 2 ^ K + rho).
  { rewrite Hm, Hxr.
    replace ((1000 * s + r) * 2 ^ K) with (r * 2 ^ K + (s * 2 ^ K) * 1000) by ring.
    rewrite rne_shift; [unfold rho; lia|lia|].
    rewrite Z.even_mul. replace K with (Z.succ (K - 1)) by lia.
    rewrite Z.pow_succ_r by lia. rewrite Z.even_mul. cbn. apply orb_true_r. }
  pose proof (rne_near (r * 2 ^ K) 1000 ltac:(lia)) as Hnear. fold rho in Hnear.
  assert (Hrho : 0 <= rho < 2 ^ K).
  { pose proof (rne_bounds (r * 2 ^ K) 1000 ltac:(lia)) as Hb. fold rho in Hb.
    assert (0 <= r * 2 ^ K / 1000) by (apply Z.div_pos; nia).
    split; [lia|]. clear -Hnear Hr HpK. nia. }
  unfold Py.to_timeval, Float64.modf.
  replace (0 <=? - K) with false by (symmetry; apply Z.leb_gt; lia).
  cbn [cond_Zopp]. rewrite Z2Pos.id by lia.
  replace (- - K) with K by lia.
  rewrite Z.shiftr_div_pow2 by lia.
  assert (Hdiv : m / 2 ^ K = s).
  { symmetry. apply (Z.div_unique m (2 ^ K) s rho); lia. }
  assert (Hmod : m mod 2 ^ K = rho).
  { symmetry. apply (Z.mod_unique m (2 ^ K) s rho); lia. }
  rewrite Hdiv, Hmod.
  change (Float64.of_Z 1000000) with (S754_finite false 8589934592000000 (-33)).
  destruct (Z.eq_dec rho 0) as [H0|Hne].
  - assert (r = 0) by (rewrite H0 in Hnear; clear -Hnear Hr HpK; nia).
    rewrite H0, H. reflexivity.
  - unfold Float64.prec, Float64.emax.
    pose proof (Zdigits2_bounds rho ltac:(lia)) as Hbr.
    set (dr := Zdigits2 rho) in *.
    assert (Hdr : 1 <= dr <= 53).
    { split.
      - unfold dr. rewrite Zdigits2_log2 by lia. pose proof (Z.log2_nonneg rho). lia.
      - destruct (Z.le_gt_cases dr 53) as [H|H]; [exact H|].
        assert (2 ^ 53 <= 2 ^ (dr - 1)) by (apply Z.pow_le_mono_r; lia). nia. }
    rewrite (normalize_exact rho (- K)) by (fold dr; nia). fold dr.
    set (mf := rho * 2 ^ (53 - dr)).
    assert (Hmf : 2 ^ 52 <= mf < 2 ^ 53).
    { unfold mf.
      assert (E1 : 2 ^ 52 = 2 ^ (dr - 1) * 2 ^ (53 - dr))
        by (rewrite <- Z.pow_add_r by lia; f_equal; lia).
      assert (E2 : 2 ^ 53 = 2 ^ dr * 2 ^ (53 - dr))
        by (rewrite <- Z.pow_add_r by lia; f_equal; lia).
      assert (0 < 2 ^ (53 - dr)) by (apply Z.pow_pos_nonneg; lia).
      rewrite E1, E2. clear -Hbr H. nia. }
    unfold Float64.mul, Float64.prec, Float64.emax. cbn [SFmul xorb].
    rewrite Pos2Z.inj_mul, Z2Pos.id by lia.
    set (P := mf * 8589934592000000).
    set (a := 86 - dr).
    assert (HP : P = 1000000 * rho * 2 ^ a).
    { unfold P, mf, a. replace (86 - dr) with ((53 - dr) + 33) by lia.
      rewrite Z.pow_add_r by lia. change (2 ^ 33) with 8589934592. ring. }
    assert (HPlo : 2 ^ 104 <= P) by (unfold P; lia).
    assert (HPhi : P < 2 ^ (K + a + 20)).
    { rewrite HP. rewrite !Z.pow_add_r by lia.
      assert (0 < 2 ^ a) by (apply Z.pow_pos_nonneg; lia).
      change (2 ^ 20) with 1048576. clear -Hrho H. nia. }
    pose proof (Zdigits2_bounds P ltac:(lia)) as HbP.
    set (dP := Zdigits2 P) in *.
    assert (HdP : 105 <= dP <= K + a + 20).
    { split.
      - destruct (Z.le_gt_cases 105 dP) as [H|H]; [exact H|].
        assert (2 ^ dP <= 2 ^ 104) by (apply Z.pow_le_mono_r; lia). lia.
      - destruct (Z.le_gt_cases dP (K + a + 20)) as [H|H]; [exact H|].
        assert (2 ^ (K + a + 20) <= 2 ^ (dP - 1)) by (apply Z.pow_le_mono_r; lia). lia. }
    set (n2 := dP - 53).
    destruct (binary_round_aux_spec false P (- K + dr - 53 + -33) loc_Exact P 1
                ltac:(lia) ltac:(lia) (located_exact P)
                ltac:(fold dP; lia) ltac:(fold dP; lia) ltac:(fold dP; lia)
                n2 (rne P (1 * 2 ^ n2)) eq_refl eq_refl) as [Hm2 Hres].
    rewrite Hres. rewrite Z.mul_1_l in *.
    pose proof (rne_near P (2 ^ n2) ltac:(apply Z.pow_pos_nonneg; lia)) as Hn2.
    set (m2 := rne P (2 ^ n2)) in *.
    match goal with
    | |- context [Float64.round_half_even ?f] =>
        assert (Hus : Float64.round_half_even f = 1000 * r)
    end.
    { destruct (Z.ltb_spec m2 (2 ^ 53)) as [Hlt|Hge].
      - rewrite round_half_even_rne by lia.
        replace (- (- K + dr - 53 + -33 + n2)) with (K + a - n2) by (unfold a; lia).
        apply (final_round K a n2 m2 rho r); lia.
      - rewrite round_half_even_rne by lia.
        replace (- (- K + dr - 53 + -33 + n2 + 1)) with (K + a - (n2 + 1))
          by (unfold a; lia).
        apply (final_round K a (n2 + 1) (2 ^ 52) rho r); try lia.
        rewrite <- HP. assert (E : m2 = 2 ^ 53) by lia. rewrite E in Hn2.
        rewrite Z.pow_add_r by lia.
        assert (0 < 2 ^ n2) by (apply Z.pow_pos_nonneg; lia).
        clear -Hn2 H. lia. }
    rewrite Hus.
    replace (1000000 <=? 1000 * r) with false by (symmetry; apply Z.leb_gt; lia).
    replace (1000 * r <? 0) with false by (symmetry; apply Z.ltb_ge; lia).
    f_equal. lia.
Qed.

Lemma to_timeval_millis (ts : Z) :
  0 <= ts < 2 ^ 42 ->
  Float64.is_finite (Py.truediv_1000 ts) = true /\
  Py.to_timeval (Py.truediv_1000 ts) = (ts / 1000, ts mod 1000 * 1000).
Proof.
  intros Hts. destruct (Z.eq_dec ts 0) as [->|Hne].
  - split; reflexivity.
  - split; [|apply to_timeval_spec; lia].
    destruct (truediv_1000_spec ts ltac:(lia)) as (K & m & _ & -> & _).
    reflexivity.
Qed.

Lemma get_timestamp_millis (eng : Engine) (ts : Z) :
  0 <= ts < 2 ^ 42 ->
  get_timestamp eng (VLong ts)
  = Ok (VTimestamp (mktime eng (ts / 1000 + utcoffset eng (ts / 1000)) * 1000000
                    + ts mod 1000 * 1000)).
Proof.
  intros Hts. destruct (to_timeval_millis ts Hts) as [Hfin Htv].
  unfold get_timestamp, Py.fromtimestamp. rewrite Hfin, Htv.
  pose proof (utcoffset_range eng (ts / 1000)) as Hoff.
  assert (Hs : 0 <= ts / 1000 < 4398046512).
  { split; [apply Z.div_pos; lia|]. apply Z.div_lt_upper_bound; lia. }
  unfold Py.min_wall, Py.max_wall.
  replace (-62135596800 <=? ts / 1000 + utcoffset eng (ts / 1000)) with true
    by (symmetry; apply Z.leb_le; lia).
  replace (ts / 1000 + utcoffset eng (ts / 1000) <=? 253402300799) with true
    by (symmetry; apply Z.leb_le; lia).
  reflexivity.
Qed.

Lemma subsecond_of_parts (a b : Z) :
  0 <= b < 1000000 ->
  Ts.subsecond (a * 1000000 + b) = b /\ Ts.seconds (a * 1000000 + b) = a.
Proof.
  intros Hb. unfold Ts.subsecond, Ts.seconds. split.
  - symmetry. apply (Z.mod_unique _ _ a); lia.
  - symmetry. apply (Z.div_unique _ _ a b); lia.
Qed.

(** C5, as the code has it.  The start_time of an event is
    [datetime.fromtimestamp(ts / 1000.0)] and nothing truncates it to whole
    seconds: for every ts from 0 up to 2^42 ms (the year 2109) the timestamp
    keeps the millisecond part of ts as its sub-second component, its whole
    seconds are those of ts seen through the host time zone, and two ts of
    the same second get the same start_time only when they are equal. *)
Theorem start_time_keeps_the_milliseconds (eng : Engine) (ts ts' : Z) :
  0 <= ts < 2 ^ 42 -> 0 <= ts' < 2 ^ 42 ->
  exists t,
    get_timestamp eng (VLong ts) = Ok (VTimestamp t) /\
    Ts.subsecond t = ts mod 1000 * 1000 /\
    Ts.seconds t = mktime eng (ts / 1000 + utcoffset eng (ts / 1000)) /\
    (ts / 1000 = ts' / 1000 ->
     get_timestamp eng (VLong ts) = get_timestamp eng (VLong ts') -> ts = ts').
Proof.
  intros Hts Hts'. eexists. split; [apply get_timestamp_millis; exact Hts|].
  pose proof (Z.mod_pos_bound ts 1000 ltac:(lia)) as Hr.
  pose proof (Z.mod_pos_bound ts' 1000 ltac:(lia)) as Hr'.
  destruct (subsecond_of_parts
              (mktime eng (ts / 1000 + utcoffset eng (ts / 1000)))
              (ts mod 1000 * 1000) ltac:(lia)) as [Hsub Hsec].
  split; [exact Hsub|]. split; [exact Hsec|].
  intros Hq. rewrite !get_timestamp_millis by assumption.
  rewrite <- Hq. intros [= E].
  pose proof (Z.div_mod ts 1000 ltac:(lia)).
  pose proof (Z.div_mod ts' 1000 ltac:(lia)). lia.
Qed.

Lemma start_time_keeps_the_milliseconds_witness :
  0 <= 1999 < 2 ^ 42 /\
  0 <= 1000 < 2 ^ 42 /\
  (exists t,
    get_timestamp utc_engine (VLong 1999) = Ok (VTimestamp t) /\
    Ts.subsecond t = 1999 mod 1000 * 1000 /\
    Ts.seconds t = mktime utc_engine (1999 / 1000 + utcoffset utc_engine (1999 / 1000)) /\
    (1999 / 1000 = 1000 / 1000 ->
     get_timestamp utc_engine (VLong 1999) = get_timestamp utc_engine (VLong 1000) ->
     1999 = 1000)).
Proof.
  assert (H1 : 0 <= 1999 < 2 ^ 42) by (lia).
  assert (H2 : 0 <= 1000 < 2 ^ 42) by (lia).
  repeat (split; [assumption|]).
  apply (start_time_keeps_the_milliseconds utc_engine 1999 1000); assumption.
Defined.

(** ** The timestamp of an event *)

(** C5 as stated fails at ts = 1999: the start_time of 1999 ms has the
    sub-second component 999000 microseconds, and 1000 ms and 1999 ms, though
    in the same second, get different start_times. *)
Lemma start_time_is_not_truncated :
  get_timestamp utc_engine (VLong 1000) = Ok (VTimestamp 1000000) /\
  get_timestamp utc_engine (VLong 1999) = Ok (VTimestamp 1999000) /\
  Ts.seconds 1000000 = Ts.seconds 1999000 /\
  Ts.subsecond 1999000 = 999000 /\
  get_timestamp utc_engine (VLong 1000) <> get_timestamp utc_engine (VLong 1999).
Proof.
  assert (H1 : get_timestamp utc_engine (VLong 1000) = Ok (VTimestamp 1000000))
    by (vm_compute; reflexivity).
  assert (H2 : get_timestamp utc_engine (VLong 1999) = Ok (VTimestamp 1999000))
    by (vm_compute; reflexivity).
  rewrite H1, H2. repeat split; try reflexivity. discriminate.
Qed.

(** ** Running the job *)


(** The scenario, run in UTC: 1000000000000 ms is Sunday 9 September 2001,
    01:46:40, in ISO week 36. *)
Example scenario_times :
  written_table
    (snd (main utc_engine "in" "out"
            (session_of "s3a://in/" [scenario_song] [scenario_event])))
    "s3a://out/times"
  = Some {| columns := ["start_time"; "hour"; "day"; "week"; "month"; "year"; "weekday"];
            rows := [[VTimestamp 1000000000000000; VInt 1; VInt 9; VInt 36;
                      VInt 9; VInt 2001; VInt 1]] |}.
Proof. vm_compute. reflexivity. Qed.

Example scenario_users :
  written_table
    (snd (main utc_engine "in" "out"
            (session_of "s3a://in/" [scenario_song]
               [scenario_event; scenario_home; scenario_later; scenario_anonymous])))
    "s3a://out/users"
  = Some {| columns := ["user_id"; "first_name"; "last_name"; "gender"; "level"];
            rows := [[VString "U1"; VString "Jo"; VString "Do"; VString "F"; VString "paid"];
                     [VNull; VNull; VNull; VNull; VString "free"]] |}.
Proof. vm_compute. reflexivity. Qed.

(** A NextSong event without ts: the users are written, then the UDF raises
    and neither times nor songplays are. *)
Example scenario_null_ts :
  let e := {| e_ts := None; e_userId := Some "U3"; e_firstName := None;
              e_lastName := None; e_gender := None; e_level := None;
              e_page := Some "NextSong"; e_song := None; e_length := None;
              e_sessionId := None; e_location := None; e_userAgent := None |} in
  let r := main utc_engine "in" "out" (session_of "s3a://in/" [scenario_song] [e]) in
  fst r = Raise (PythonException "TypeError") /\
  written_table (snd r) "s3a://out/users"
  = Some {| columns := ["user_id"; "first_name"; "last_name"; "gender"; "level"];
            rows := [[VString "U3"; VNull; VNull; VNull; VNull]] |} /\
  written_table (snd r) "s3a://out/times" = None /\
  written_table (snd r) "s3a://out/songplays" = None.
Proof. vm_compute. repeat split; reflexivity. Qed.

(** * Further properties of the job *)

(** ** What the transforms touch *)

Lemma touches_only_bind {A B : Type} (paths names : list string)
    (m : M A) (k : A -> M B) :
  touches_only paths names m -> (forall a, touches_only paths names (k a)) ->
  touches_only paths names (bind m k).
Proof.
  intros Hm Hk s. unfold bind.
  destruct (Hm s) as (Hj & Hw & Hv).
  destruct (m s) as [[a|e] s1]; cbn [snd] in *.
  - destruct (Hk a s1) as (Hj' & Hw' & Hv'). split; [congruence|]. split.
    + intros p Hp. rewrite (Hw' p Hp). apply Hw, Hp.
    + intros v Hp. rewrite (Hv' v Hp). apply Hv, Hp.
  - auto.
Qed.

Lemma touches_only_lift {A : Type} (paths names : list string) (r : result A) :
  touches_only paths names (lift r).
Proof. intros s. auto. Qed.

Lemma touches_only_read_json (paths names : list string) (path : string) :
  touches_only paths names (read_json path).
Proof. intros s. unfold read_json. destruct (json_source s path); auto. Qed.

Lemma touches_only_from_view (paths names : list string) (name : string) :
  touches_only paths names (from_view name).
Proof. intros s. unfold from_view. destruct (views s !! name); auto. Qed.

Lemma touches_only_view (paths names : list string) (name : string) (df : DataFrame) :
  name ∈ names -> touches_only paths names (createOrReplaceTempView name df).
Proof.
  intros Hn s. unfold createOrReplaceTempView. cbn [snd json_source written views].
  split; [reflexivity|]. split; [reflexivity|].
  intros v Hv. apply lookup_insert_ne. intros ->. contradiction.
Qed.

Lemma touches_only_write (paths names : list string) (path : string)
    (cols : list string) (df : DataFrame) :
  path ∈ paths -> touches_only paths names (write_parquet path cols df).
Proof.
  intros Hn s. unfold write_parquet.
  destruct (mapR (resolve df) cols); cbn [snd json_source written views]; [|auto].
  split; [reflexivity|]. split; [|reflexivity].
  intros p Hp. apply lookup_insert_ne. intros ->. contradiction.
Qed.

Lemma touches_only_weaken {A : Type} (paths names paths' names' : list string) (m : M A) :
  paths ⊆ paths' -> names ⊆ names' ->
  touches_only paths names m -> touches_only paths' names' m.
Proof.
  intros Hp Hn H s. destruct (H s) as (Hj & Hw & Hv).
  split; [exact Hj|]. split.
  - intros p Hnot. apply Hw. intros Hin. apply Hnot, Hp, Hin.
  - intros v Hnot. apply Hv. intros Hin. apply Hnot, Hn, Hin.
Qed.

Ltac frame :=
  repeat first
    [ apply touches_only_lift
    | apply touches_only_read_json
    | apply touches_only_from_view
    | apply touches_only_view; set_solver
    | apply touches_only_write; set_solver
    | apply touches_only_bind; [|intros ?] ].

Lemma process_song_data_touches (input_data output_data : string) :
  touches_only (song_locations output_data) ["songs"]
    (process_song_data input_data output_data).
Proof. unfold process_song_data, song_locations. frame. Qed.

Lemma process_log_data_frame (eng : Engine) (input_data output_data : string) :
  touches_only (log_locations output_data) ["users"; "stage_songplay"]
    (process_log_data eng input_data output_data).
Proof.
  unfold process_log_data, process_log_data_tail, users_query, songplays_query,
    log_locations.
  frame.
Qed.

(** X1.  However the log transform ends, returning or raising, it leaves
    the work of the song transform alone: the JSON data, the view songs and
    what is written at songs and artists are as they were, and so is every
    location other than users, times and songplays and every view other
    than users and stage_songplay. *)
Theorem log_transform_keeps_the_song_tables (eng : Engine)
    (input_data output_data : string) (s : Session) :
  let s' := snd (process_log_data eng input_data output_data s) in
  json_source s' = json_source s /\
  views s' !! "songs" = views s !! "songs" /\
  written s' !! (output_data ++ "songs") = written s !! (output_data ++ "songs") /\
  written s' !! (output_data ++ "artists") = written s !! (output_data ++ "artists") /\
  (forall p, p <> output_data ++ "users" -> p <> output_data ++ "times" ->
     p <> output_data ++ "songplays" -> written s' !! p = written s !! p) /\
  (forall v, v <> "users" -> v <> "stage_songplay" -> views s' !! v = views s !! v).
Proof.
  intros s'. destruct (process_log_data_frame eng input_data output_data s) as (Hj & Hw & Hv).
  fold s' in Hj, Hw, Hv.
  assert (Hp : forall p, p <> output_data ++ "users" -> p <> output_data ++ "times" ->
                 p <> output_data ++ "songplays" -> written s' !! p = written s !! p).
  { intros p H1 H2 H3. apply Hw. unfold log_locations.
    rewrite !not_elem_of_cons. repeat split; try assumption. apply not_elem_of_nil. }
  assert (Hn : forall v, v <> "users" -> v <> "stage_songplay" ->
                 views s' !! v = views s !! v).
  { intros v H1 H2. apply Hv.
    rewrite !not_elem_of_cons. repeat split; try assumption. apply not_elem_of_nil. }
  split; [exact Hj|]. split; [apply Hn; discriminate|].
  split; [apply Hp; other_path|]. split; [apply Hp; other_path|].
  split; assumption.
Qed.

(** X2.  However the job ends, it changes nothing but its five locations
    under the output root and its three views, and never the JSON data. *)
Theorem main_touches (eng : Engine) (input_bucket output_bucket : string) (s : Session) :
  let output_data := bucket_str_format output_bucket in
  let s' := snd (main eng input_bucket output_bucket s) in
  json_source s' = json_source s /\
  (forall p, p ∉ [output_data ++ "songs"; output_data ++ "artists";
                  output_data ++ "users"; output_data ++ "times";
                  output_data ++ "songplays"] ->
     written s' !! p = written s !! p) /\
  (forall v, v ∉ ["songs"; "users"; "stage_songplay"] -> views s' !! v = views s !! v).
Proof.
  intros output_data s'.
  assert (H : touches_only (song_locations output_data ++ log_locations output_data)%list
                ["songs"; "users"; "stage_songplay"]
                (main eng input_bucket output_bucket)).
  { unfold main. apply touches_only_bind; [|intros _].
    - eapply touches_only_weaken; [| |apply process_song_data_touches].
      + intros p Hp. apply elem_of_app. left. exact Hp.
      + intros v Hv. apply list_elem_of_singleton in Hv as ->. apply list_elem_of_here.
    - eapply touches_only_weaken; [| |apply process_log_data_frame].
      + intros p Hp. apply elem_of_app. right. exact Hp.
      + intros v Hv. apply list_elem_of_further. exact Hv. }
  exact (H s).
Qed.

(** ** What the job reads *)

Lemma source_blind_after_read {A : Type} (path : string) (k : DataFrame -> M A)
    (s1 s2 : Session) :
  (forall df, source_blind (k df)) ->
  same_tables s1 s2 ->
  json_source s1 path = json_source s2 path ->
  fst (bind (read_json path) k s1) = fst (bind (read_json path) k s2) /\
  same_tables (snd (bind (read_json path) k s1)) (snd (bind (read_json path) k s2)).
Proof.
  intros Hk Hs Hj. unfold bind, read_json. rewrite Hj.
  destruct (json_source s2 path) as [df|].
  - apply Hk, Hs.
  - split; [reflexivity|exact Hs].
Qed.

Ltac blind :=
  repeat first
    [ apply source_blind_bind; [|intros ?]
    | apply source_blind_lift
    | apply source_blind_from_view
    | apply source_blind_view
    | apply source_blind_write
    | apply source_blind_tail ].

(** X3.  The job looks at the storage through its two patterns only: on
    two sessions with the same views and tables, whose JSON data agree at
    the song pattern and at the log pattern, it ends the same way and
    leaves the same views and tables. *)
Theorem main_reads_two_patterns (eng : Engine) (input_bucket output_bucket : string)
    (s1 s2 : Session) :
  same_tables s1 s2 ->
  json_source s1 (song_data_path (bucket_str_format input_bucket))
  = json_source s2 (song_data_path (bucket_str_format input_bucket)) ->
  json_source s1 (log_data_path (bucket_str_format input_bucket))
  = json_source s2 (log_data_path (bucket_str_format input_bucket)) ->
  fst (main eng input_bucket output_bucket s1) = fst (main eng input_bucket output_bucket s2) /\
  same_tables (snd (main eng input_bucket output_bucket s1))
              (snd (main eng input_bucket output_bucket s2)).
Proof.
  intros Hs Hsong Hlog. unfold main.
  set (input_data := bucket_str_format input_bucket).
  set (output_data := bucket_str_format output_bucket).
  fold input_data in Hsong, Hlog.
  assert (H1 : fst (process_song_data input_data output_data s1)
               = fst (process_song_data input_data output_data s2) /\
               same_tables (snd (process_song_data input_data output_data s1))
                           (snd (process_song_data input_data output_data s2))).
  { unfold process_song_data. apply source_blind_after_read; [|exact Hs|exact Hsong].
    intros df. blind. }
  destruct (process_song_data_touches input_data output_data s1) as (Hj1 & _).
  destruct (process_song_data_touches input_data output_data s2) as (Hj2 & _).
  unfold bind.
  destruct (process_song_data input_data output_data s1) as [[[]|e1] s1'],
           (process_song_data input_data output_data s2) as [[[]|e2] s2'];
    cbn [fst snd] in *; destruct H1 as [Hr Hs']; try discriminate.
  - unfold process_log_data. apply source_blind_after_read; [|exact Hs'|].
    + intros df. blind.
    + rewrite Hj1, Hj2. exact Hlog.
  - split; [exact Hr|exact Hs'].
Qed.

Lemma main_reads_two_patterns_witness :
  same_tables (session_of "s3a://in/" [scenario_song] [scenario_event])
    (with_log (session_of "s3a://in/" [scenario_song] [scenario_event])
       "s3a://elsewhere/" [scenario_later]) /\
  json_source (session_of "s3a://in/" [scenario_song] [scenario_event])
    (song_data_path (bucket_str_format "in"))
  = json_source (with_log (session_of "s3a://in/" [scenario_song] [scenario_event])
                   "s3a://elsewhere/" [scenario_later])
      (song_data_path (bucket_str_format "in")) /\
  json_source (session_of "s3a://in/" [scenario_song] [scenario_event])
    (log_data_path (bucket_str_format "in"))
  = json_source (with_log (session_of "s3a://in/" [scenario_song] [scenario_event])
                   "s3a://elsewhere/" [scenario_later])
      (log_data_path (bucket_str_format "in")) /\
  (fst (main utc_engine "in" "out"
          (session_of "s3a://in/" [scenario_song] [scenario_event]))
   = fst (main utc_engine "in" "out"
            (with_log (session_of "s3a://in/" [scenario_song] [scenario_event])
               "s3a://elsewhere/" [scenario_later])) /\
   same_tables
     (snd (main utc_engine "in" "out"
             (session_of "s3a://in/" [scenario_song] [scenario_event])))
     (snd (main utc_engine "in" "out"
             (with_log (session_of "s3a://in/" [scenario_song] [scenario_event])
                "s3a://elsewhere/" [scenario_later])))).
Proof.
  assert (H1 : same_tables (session_of "s3a://in/" [scenario_song] [scenario_event])
                 (with_log (session_of "s3a://in/" [scenario_song] [scenario_event])
                    "s3a://elsewhere/" [scenario_later]))
    by (split; reflexivity).
  assert (H2 : json_source (session_of "s3a://in/" [scenario_song] [scenario_event])
                 (song_data_path (bucket_str_format "in"))
               = json_source (with_log (session_of "s3a://in/" [scenario_song] [scenario_event])
                                "s3a://elsewhere/" [scenario_later])
                   (song_data_path (bucket_str_format "in")))
    by (vm_compute; reflexivity).
  assert (H3 : json_source (session_of "s3a://in/" [scenario_song] [scenario_event])
                 (log_data_path (bucket_str_format "in"))
               = json_source (with_log (session_of "s3a://in/" [scenario_song] [scenario_event])
                                "s3a://elsewhere/" [scenario_later])
                   (log_data_path (bucket_str_format "in")))
    by (vm_compute; reflexivity).
  repeat (split; [assumption|]).
  apply (main_reads_two_patterns utc_engine "in" "out"); assumption.
Defined.

(** ** How the job fails *)

(** X4.  When the song pattern matches nothing, the job raises the
    exception of the reader and stops there: the session is as it was, and
    the log transform does not run, whatever the log holds. *)
Theorem missing_songs_stop_the_job (eng : Engine) (input_bucket output_bucket : string)
    (s : Session) :
  json_source s (song_data_path (bucket_str_format input_bucket)) = None ->
  main eng input_bucket output_bucket s
  = (Raise (AnalysisException "Path does not exist"), s).
Proof.
  intros H. unfold main, process_song_data, bind, read_json. rewrite H. reflexivity.
Qed.

Lemma missing_songs_stop_the_job_witness :
  json_source (session_of "s3a://other/" [scenario_song] [scenario_event])
    (song_data_path (bucket_str_format "in")) = None /\
  (main utc_engine "in" "out" (session_of "s3a://other/" [scenario_song] [scenario_event])
   = (Raise (AnalysisException "Path does not exist"),
      session_of "s3a://other/" [scenario_song] [scenario_event])).
Proof.
  assert (H1 : json_source (session_of "s3a://other/" [scenario_song] [scenario_event])
                 (song_data_path (bucket_str_format "in")) = None)
    by (vm_compute; reflexivity).
  repeat (split; [assumption|]).
  apply (missing_songs_stop_the_job utc_engine "in" "out"); assumption.
Defined.












(** ** Running the job again, and on a log without plays *)







(** ** The times table *)






(** ** What the songplays rows refer to *)










(** ** The numbering of the songplays *)







(** ** The users table and the order of the rows *)






(** ** The song tables and the order of the records *)




(** ** When the job returns *)



(** ** The script *)

(** X18.  The script looks up four settings of the section S3 before it
    reads or writes anything: when one of them is missing, it ends with an
    exception and the session is as it was. *)
Theorem script_needs_every_setting (eng : Engine) (config : Config) (p : Process)
    (name : string) (e : exn) :
  name ∈ settings ->
  config "S3" name = Raise e ->
  exists e', fst (script eng config p) = Raise e' /\ spark (snd (script eng config p)) = spark p.
Proof.
  intros Hn He. unfold script.
  destruct (config "S3" "AWS_ACCESS_KEY_ID") as [key|e1] eqn:E1; [|eauto].
  destruct (config "S3" "AWS_SECRET_ACCESS_KEY") as [secret|e2] eqn:E2; [|eauto].
  destruct (config "S3" "input_bucket") as [input_bucket|e3] eqn:E3; [|eauto].
  destruct (config "S3" "output_bucket") as [output_bucket|e4] eqn:E4; [|eauto].
  unfold settings in Hn. rewrite !elem_of_cons, elem_of_nil in Hn.
  destruct Hn as [->|[->|[->|[->|[]]]]]; congruence.
Qed.

Lemma script_needs_every_setting_witness :
  "output_bucket" ∈ settings /\
  (fun section option =>
     if String.eqb option "output_bucket" then Raise (PythonException "KeyError")
     else Ok "in") "S3" "output_bucket" = Raise (PythonException "KeyError") /\
  (exists e',
     fst (script utc_engine
            (fun section option =>
               if String.eqb option "output_bucket" then Raise (PythonException "KeyError")
               else Ok "in")
            {| environ := ∅; spark := session_of "s3a://in/" [scenario_song] [scenario_event] |})
     = Raise e' /\
     spark (snd (script utc_engine
                   (fun section option =>
                      if String.eqb option "output_bucket"
                      then Raise (PythonException "KeyError")
                      else Ok "in")
                   {| environ := ∅;
                      spark := session_of "s3a://in/" [scenario_song] [scenario_event] |}))
     = spark {| environ := ∅;
                spark := session_of "s3a://in/" [scenario_song] [scenario_event] |}).
Proof.
  assert (H1 : "output_bucket" ∈ settings)
    by (unfold settings; rewrite !elem_of_cons; tauto).
  assert (H2 : (fun section option : string =>
                  if String.eqb option "output_bucket"
                  then Raise (PythonException "KeyError")
                  else @Ok string "in") "S3" "output_bucket"
               = Raise (PythonException "KeyError"))
    by reflexivity.
  repeat (split; [assumption|]).
  apply (script_needs_every_setting utc_engine _ _ "output_bucket"
           (PythonException "KeyError")); assumption.
Defined.

(** ** The timestamp, there and back *)

(** X19.  The function of line 122 turns ts into a local date and time, and
    the engine turns that back into an instant.  Where the host's [mktime]
    gives back the second the local time came from, the start_time of a ts
    from 0 up to 2^42 ms is the instant of ts itself, ts * 1000 microseconds,
    whatever the time zone of the host. *)
Theorem start_time_is_the_instant_of_ts (eng : Engine) (ts : Z) :
  0 <= ts < 2 ^ 42 ->
  mktime eng (ts / 1000 + utcoffset eng (ts / 1000)) = ts / 1000 ->
  get_timestamp eng (VLong ts) = Ok (VTimestamp (ts * 1000)).
Proof.
  intros Hts Hmk. rewrite get_timestamp_millis by exact Hts. rewrite Hmk.
  do 2 f_equal. pose proof (Z.div_mod ts 1000 ltac:(lia)). lia.
Qed.

Lemma start_time_is_the_instant_of_ts_witness :
  0 <= 1000000001999 < 2 ^ 42 /\
  mktime eastern_engine
    (1000000001999 / 1000 + utcoffset eastern_engine (1000000001999 / 1000))
  = 1000000001999 / 1000 /\
  get_timestamp eastern_engine (VLong 1000000001999)
  = Ok (VTimestamp (1000000001999 * 1000)).
Proof.
  assert (H1 : 0 <= 1000000001999 < 2 ^ 42) by lia.
  assert (H2 : mktime eastern_engine
                 (1000000001999 / 1000 + utcoffset eastern_engine (1000000001999 / 1000))
               = 1000000001999 / 1000)
    by (vm_compute; reflexivity).
  repeat (split; [assumption|]).
  apply (start_time_is_the_instant_of_ts eastern_engine 1000000001999); assumption.
Defined.
